(** * Visual ERP frontend: the resource client, the session manager and the
      quote form, embedded from the JavaScript sources.

    - [src/lib/api-enhanced.js]  : class [EnhancedAPIService] (module [Enhanced])
    - [src/lib/api.js]           : class [ApiService]         (module [Basic])
    - [components/AuthProvider]  : [checkAuthStatus], [login], [logout]
    - [components/QuoteCRUD.jsx] : [validateForm], [handleSubmit],
                                   [handleEdit], the line item handlers
    - [src/lib/analytics.js]     : the queues of [AnalyticsService]

    Asynchronous functions are state transformers over a [World] that holds
    a service object, the promise store, [localStorage], the React state
    of the auth provider and the trace of fetches and timer delays.  The
    model runs one logical call chain at a time: an [await] on a promise that
    is still pending ends the run with [Suspended].

    The amounts of the quote form are binary64 numbers and the text typed
    into it is kept as UTF-16 code units. *)

From stdpp Require Import base strings gmap list pretty.
From Stdlib Require Import Ascii QArith_base.
From Stdlib Require Import Floats.SpecFloat.
Close Scope Q_scope.

#[local] Set Warnings "-register-all".

(* ===================================================================== *)
(** ** JavaScript values *)
(* ===================================================================== *)

(** Parsed JSON.  Numbers are rationals: the literals of the sources
    ([45.00], [89.99]) are decimals, and no arithmetic is done on them. *)
Inductive Json : Type :=
| JNull
| JBool (b : bool)
| JNum (q : Q)
| JStr (s : string)
| JArr (items : list Json)
| JObj (fields : list (string * Json)).

(** [if (v)], [v && _], [v ? _ : _] *)
Definition truthy (v : Json) : bool :=
  match v with
  | JNull => false
  | JBool b => b
  | JNum q => negb (Qeq_bool q (0 # 1))
  | JStr s => negb (String.eqb s "")
  | JArr _ | JObj _ => true
  end.

(** A property read that yields [undefined] is [None]. *)
Definition truthy_opt (o : option Json) : bool :=
  match o with
  | Some v => truthy v
  | None => false
  end.

Fixpoint assoc (k : string) (fields : list (string * Json)) : option Json :=
  match fields with
  | [] => None
  | (k', v) :: rest => if String.eqb k k' then Some v else assoc k rest
  end.

(** [v.k] for the keys the sources read ([success], [token], [user],
    [message]) on a value that is not [null]: only objects carry them. *)
Definition prop (v : Json) (k : string) : option Json :=
  match v with
  | JObj fields => assoc k fields
  | _ => None
  end.

(** What is thrown: an [Error] with its message, or the [undefined] that
    [throw lastError] throws when the retry loop never ran. *)
Inductive JsError : Type :=
| Err (message : string)
| ThrownUndefined.

Definition TypeError_null (k : string) : JsError :=
  Err ("Cannot read properties of null (reading '" +:+ k +:+ "')").

Definition TypeError_undefined (k : string) : JsError :=
  Err ("Cannot read properties of undefined (reading '" +:+ k +:+ "')").

(** [v.k] in full: reading a property of [null] throws. *)
Definition read_prop (v : Json) (k : string) : JsError + option Json :=
  match v with
  | JNull => inl (TypeError_null k)
  | _ => inr (prop v k)
  end.

(** [error.message]: throws when [error] is [undefined]. *)
Definition error_message (e : JsError) : JsError + string :=
  match e with
  | Err m => inr m
  | ThrownUndefined => inl (TypeError_undefined "message")
  end.

(** [String.prototype.startsWith] and [String.prototype.includes] *)
Fixpoint startsWith (s needle : string) : bool :=
  match needle, s with
  | EmptyString, _ => true
  | String _ _, EmptyString => false
  | String a needle', String b s' => Ascii.eqb a b && startsWith s' needle'
  end.

Fixpoint includes (s needle : string) : bool :=
  startsWith s needle ||
  match s with
  | EmptyString => false
  | String _ s' => includes s' needle
  end.

(** *** Text typed by the user, and numbers computed with

    A JavaScript string is a sequence of UTF-16 code units; [length],
    [substring] and [trim] count and test code units.  Where the text is
    the user's (a product name, the fields of a form) it is kept as the list
    of its code units, each below 65536. *)
Definition jstring : Type := list N.

(** The code units of a literal of the sources, which are ASCII. *)
Definition units (s : string) : jstring :=
  N_of_ascii <$> String.list_ascii_of_string s.

(** A JavaScript number is an IEEE 754 binary64 value ([prec = 53],
    [emax = 1024]); [+] and [*] round to nearest, ties to even. *)
Definition number : Type := spec_float.

Definition number_add : number -> number -> number := SFadd 53 1024.
Definition number_mul : number -> number -> number := SFmul 53 1024.

(** The number nearest to an integer; [0] is [+0]. *)
Definition number_of_Z (z : Z) : number :=
  binary_normalize 53 1024 z 0 false.

Definition NaN : number := S754_nan.

(** [Number.prototype.toString] with no radix, which the platform
    provides. *)
Class NumberFormat : Type := {
  Number_toString : number -> jstring
}.

(* ===================================================================== *)
(** ** The browser platform *)
(* ===================================================================== *)

(** The [config] object handed to [fetch]. *)
Record Config : Type := mkConfig {
  cfg_method : option string;
  cfg_headers : list (string * string);
  cfg_body : option string
}.

(** The [options] argument of [makeRequest] / [request]. *)
Record Options : Type := mkOptions {
  opt_method : option string;
  opt_headers : option (list (string * string));
  opt_body : option string
}.

Definition no_options : Options := mkOptions None None None.

(** [response.json()] either yields a value or rejects (a [SyntaxError]). *)
Inductive Body : Type :=
| Parsed (data : Json)
| Unparsable (message : string).

Record Response : Type := mkResponse {
  ok : bool;
  status : N;
  statusText : string;
  body : Body
}.

(** [fetch] settles with a response or rejects with a network error. *)
Inductive FetchOutcome : Type :=
| NetworkError (message : string)
| Responded (r : Response).

(** What the page cannot decide for itself: the answer to the n-th fetch,
    the JSON codec, [String(v)] for values that are not strings, and the
    clock: [toISOString_after ms] is [new Date(Date.now() + ms).toISOString()]. *)
Class Platform : Type := {
  fetch_result : nat -> string -> Config -> FetchOutcome;
  JSON_stringify : Json -> string;
  JSON_parse : string -> JsError + Json;
  String_of : Json -> string;
  toISOString_after : N -> string
}.

(** [`${v}`] *)
Definition template `{Platform} (v : Json) : string :=
  match v with
  | JStr s => s
  | _ => String_of v
  end.

(* ===================================================================== *)
(** ** The world *)
(* ===================================================================== *)

Inductive PromiseState : Type :=
| PendingP
| Resolved (data : Json)
| Rejected (error : JsError).

(** An entry of [requestQueue]: [{ url, config, resolve, reject }]; the two
    closures are the handle of the promise they settle. *)
Record QueuedRequest : Type := mkQueued {
  q_url : string;
  q_config : Config;
  q_handle : nat
}.

(** The fields of a service object ([EnhancedAPIService]; [ApiService]
    has the same ones but the queue).  The application holds one object of
    each class: [apiService] of api.js, which [AuthProvider] imports, and
    [enhancedApiService], which the CRUD components import.  A [World]
    holds the one that the code under study reads and writes. *)
Record Service : Type := mkService {
  baseURL : string;
  apiKey : Json;
  retryAttempts : nat;
  retryDelay : nat;
  requestQueue : list QueuedRequest;
  isOnline : bool
}.

(** The React state of [AuthProvider]. *)
Record AuthState : Type := mkAuth {
  isAuthenticated : bool;
  user : Json;
  isLoading : bool;
  error : option string
}.

Inductive Event : Type :=
| EvFetch (url : string) (config : Config)
| EvDelay (ms : nat).

Record World : Type := mkWorld {
  svc : Service;
  promises : gmap nat PromiseState;
  next_promise : nat;
  localStorage : gmap string string;
  auth : AuthState;
  fetches : nat;
  trace : list Event
}.

Definition set_svc (f : Service -> Service) (w : World) : World :=
  mkWorld (f (svc w)) (promises w) (next_promise w) (localStorage w) (auth w)
          (fetches w) (trace w).

Definition set_storage (f : gmap string string -> gmap string string)
    (w : World) : World :=
  mkWorld (svc w) (promises w) (next_promise w) (f (localStorage w)) (auth w)
          (fetches w) (trace w).

Definition set_auth (f : AuthState -> AuthState) (w : World) : World :=
  mkWorld (svc w) (promises w) (next_promise w) (localStorage w) (f (auth w))
          (fetches w) (trace w).

Definition set_apiKey (k : Json) (s : Service) : Service :=
  mkService (baseURL s) k (retryAttempts s) (retryDelay s) (requestQueue s)
            (isOnline s).

Definition set_requestQueue (q : list QueuedRequest) (s : Service) : Service :=
  mkService (baseURL s) (apiKey s) (retryAttempts s) (retryDelay s) q
            (isOnline s).

Definition set_isOnline (b : bool) (s : Service) : Service :=
  mkService (baseURL s) (apiKey s) (retryAttempts s) (retryDelay s)
            (requestQueue s) b.

(** The constructor: [retryAttempts = 3], [retryDelay = 1000], empty queue.
    [url] and [key] are [VITE_API_URL] and [VITE_API_KEY] (empty when unset),
    [online] is [navigator.onLine]. *)
Definition construct (url key : string) (online : bool) : Service :=
  mkService (if String.eqb url "" then "http://localhost:3000" else url)
            (JStr key) 3 1000 [] online.

Definition initial_auth : AuthState := mkAuth false JNull true None.

Definition initial_world (url key : string) (online : bool)
    (stored : gmap string string) : World :=
  mkWorld (construct url key online) ∅ 0 stored initial_auth 0 [].

(** How an asynchronous call ends in one run. *)
Inductive Outcome (A : Type) : Type :=
| Returned (a : A)
| Thrown (e : JsError)
| Suspended (handle : nat).
Arguments Returned {A} a.
Arguments Thrown {A} e.
Arguments Suspended {A} handle.

Definition M (A : Type) : Type := World -> Outcome A * World.

Definition ret {A} (a : A) : M A := fun w => (Returned a, w).

Definition throw {A} (e : JsError) : M A := fun w => (Thrown e, w).

Definition bind {A B} (c : M A) (k : A -> M B) : M B :=
  fun w =>
    match c w with
    | (Returned a, w1) => k a w1
    | (Thrown e, w1) => (Thrown e, w1)
    | (Suspended h, w1) => (Suspended h, w1)
    end.

(** [try { c } catch (error) { handler }]; a suspended [await] is not an
    exception. *)
Definition try_catch {A} (c : M A) (handler : JsError -> M A) : M A :=
  fun w =>
    match c w with
    | (Thrown e, w1) => handler e w1
    | r => r
    end.

(** [try { c } finally { f }]: [f] runs once [c] has returned or thrown. *)
Definition finally {A} (c : M A) (f : World -> World) : M A :=
  fun w =>
    match c w with
    | (Suspended h, w1) => (Suspended h, w1)
    | (o, w1) => (o, f w1)
    end.

Definition modify (f : World -> World) : M unit := fun w => (Returned tt, f w).

Definition lift_either {A} (r : JsError + A) : M A :=
  match r with
  | inl e => throw e
  | inr a => ret a
  end.

Notation "'let*' x ':=' c 'in' k" := (bind c (fun x => k))
  (at level 10, x name, c at level 100, k at level 200).
Notation "c1 ';;' c2" := (bind c1 (fun _ => c2))
  (at level 100, c2 at level 200, right associativity).

(** [await fetch(url, config)] up to the settlement of the promise. *)
Definition fetch `{Platform} (url : string) (config : Config)
    (w : World) : FetchOutcome * World :=
  (fetch_result (fetches w) url config,
   mkWorld (svc w) (promises w) (next_promise w) (localStorage w) (auth w)
           (S (fetches w)) (trace w ++ [EvFetch url config])).

(** [await new Promise(resolve => setTimeout(resolve, ms))] *)
Definition delay (ms : nat) (w : World) : World :=
  mkWorld (svc w) (promises w) (next_promise w) (localStorage w) (auth w)
          (fetches w) (trace w ++ [EvDelay ms]).

(** [resolve(v)] / [reject(e)]: only a pending promise changes state. *)
Definition settle (h : nat) (s : PromiseState) (w : World) : World :=
  match promises w !! h with
  | Some PendingP =>
      mkWorld (svc w) (<[h := s]> (promises w)) (next_promise w)
              (localStorage w) (auth w) (fetches w) (trace w)
  | _ => w
  end.

(** [localStorage.removeItem('visual_erp_token')] followed by
    [localStorage.removeItem('visual_erp_user')] *)
Definition clear_session (w : World) : World :=
  set_storage
    (fun st => delete "visual_erp_user" (delete "visual_erp_token" st)) w.

(** What [AuthProvider] calls on the [apiService] it imports. *)
Record ApiClient : Type := mkClient {
  client_authenticate : Json -> M Json;
  client_testConnection : M Json
}.

(* ===================================================================== *)
(** ** [EnhancedAPIService] (src/lib/api-enhanced.js) *)
(* ===================================================================== *)

Module Enhanced.
Section Service.
Context `{Platform}.

(** The [headers] built by [makeRequest] when [options] carries none. *)
Definition default_headers (s : Service) : list (string * string) :=
  ("Content-Type", "application/json") ::
  (if truthy (apiKey s)
   then [("Authorization", "Bearer " +:+ template (apiKey s))]
   else []).

(** [{ headers: { ..., ...options.headers }, ...options }]: the trailing
    spread of [options] replaces the merged [headers] by [options.headers]
    whenever [options] has that key. *)
Definition build_config (s : Service) (options : Options) : Config :=
  mkConfig (opt_method options)
           (match opt_headers options with
            | Some h => h
            | None => default_headers s
            end)
           (opt_body options).

(** The body of the [try] in the retry loop, given what [fetch] brought:
    what it returns ([inr]) or what lands in [catch] ([inl]). *)
Definition attempt_result (o : FetchOutcome) : JsError + Json :=
  match o with
  | NetworkError m => inl (Err m)
  | Responded r =>
      if negb (ok r) then
        (* errorData = await response.json().catch(() => ({})) *)
        let errorData :=
          match body r with
          | Parsed d => d
          | Unparsable _ => JObj []
          end in
        match read_prop errorData "message" with
        | inl e => inl e
        | inr m =>
            inl (Err ("HTTP error! status: " +:+ pretty (status r) +:+
                      ", message: " +:+
                      match m with
                      | Some v => if truthy v then template v else statusText r
                      | None => statusText r
                      end))
        end
      else
        match body r with
        | Parsed d => inr d
        | Unparsable m => inl (Err m)
        end
  end.

Definition attempt_once (url : string) (config : Config)
    (w : World) : (JsError + Json) * World :=
  let '(o, w1) := fetch url config w in (attempt_result o, w1).

(** [error.message.includes('401') || error.message.includes('403')] *)
Definition is_auth_message (m : string) : bool :=
  includes m "401" || includes m "403".

(** [for (let attempt = 1; attempt <= this.retryAttempts; attempt++)],
    entered with [remaining = retryAttempts + 1 - attempt] iterations left;
    after the loop, [throw lastError]. *)
Fixpoint attempts (remaining attempt : nat) (lastError : JsError)
    (url : string) (config : Config) (w : World) : Outcome Json * World :=
  match remaining with
  | 0 => (Thrown lastError, w)
  | S remaining' =>
      match attempt_once url config w with
      | (inr data, w1) => (Returned data, w1)
      | (inl error, w1) =>
          match error_message error with
          | inl type_error => (Thrown type_error, w1)
          | inr m =>
              if is_auth_message m then (Thrown error, w1)
              else
                let w2 :=
                  if attempt <? retryAttempts (svc w1)
                  then delay (retryDelay (svc w1) * attempt) w1
                  else w1 in
                attempts remaining' (S attempt) error url config w2
          end
      end
  end.

(** [queueRequest]: a new promise whose [resolve]/[reject] are pushed on
    the queue; the promise is returned still pending. *)
Definition queueRequest (url : string) (config : Config) : M Json :=
  fun w =>
    let h := next_promise w in
    (Suspended h,
     mkWorld (set_requestQueue
                (requestQueue (svc w) ++ [mkQueued url config h]) (svc w))
             (<[h := PendingP]> (promises w)) (S h)
             (localStorage w) (auth w) (fetches w) (trace w)).

(** [options.method !== 'GET'] *)
Definition method_is_not_GET (options : Options) : bool :=
  negb (bool_decide (opt_method options = Some "GET")).

Definition makeRequest (endpoint : string) (options : Options) : M Json :=
  fun w =>
    let url := baseURL (svc w) +:+ endpoint in
    let config := build_config (svc w) options in
    if negb (isOnline (svc w)) && method_is_not_GET options
    then queueRequest url config w
    else attempts (retryAttempts (svc w)) 1 ThrownUndefined url config w.

(** The [try]/[catch] of [processQueue] as a function of what the fetch
    brought: which way the entry's promise is settled. *)
Definition replay_settlement (o : FetchOutcome) : PromiseState :=
  match o with
  | NetworkError m => Rejected (Err m)
  | Responded r =>
      match body r with
      | Parsed data => Resolved data
      | Unparsable m => Rejected (Err m)
      end
  end.

(** One iteration of the loop of [processQueue], after the [shift]. *)
Definition replay (r : QueuedRequest) (w : World) : World :=
  let '(o, w1) := fetch (q_url r) (q_config r) w in
  settle (q_handle r) (replay_settlement o) w1.

(** [while (this.requestQueue.length > 0) { ... shift() ... }] *)
Fixpoint processQueue_loop (fuel : nat) (w : World) : World :=
  match fuel with
  | 0 => w
  | S fuel' =>
      match requestQueue (svc w) with
      | [] => w
      | r :: rest =>
          processQueue_loop fuel' (replay r (set_svc (set_requestQueue rest) w))
      end
  end.

(** Each iteration removes one entry and adds none, so the length of the
    queue is fuel enough. *)
Definition processQueue (w : World) : World :=
  processQueue_loop (length (requestQueue (svc w))) w.

(** The listeners installed by the constructor. *)
Definition on_online (w : World) : World :=
  processQueue (set_svc (set_isOnline true) w).

Definition on_offline (w : World) : World :=
  set_svc (set_isOnline false) w.

Definition authenticate (credentials : Json) : M Json :=
  try_catch
    (let* response :=
       makeRequest "/api/auth/login"
         (mkOptions (Some "POST") None (Some (JSON_stringify credentials))) in
     let* token := lift_either (read_prop response "token") in
     match token with
     | Some t =>
         if truthy t then modify (set_svc (set_apiKey t)) ;; ret response
         else ret response
     | None => ret response
     end)
    (fun error =>
       let* m := lift_either (error_message error) in
       throw (Err ("Authentication failed: " +:+ m))).

Definition refreshToken : M Json :=
  try_catch
    (let* response :=
       makeRequest "/api/auth/refresh" (mkOptions (Some "POST") None None) in
     let* token := lift_either (read_prop response "token") in
     match token with
     | Some t =>
         if truthy t then
           modify (set_svc (set_apiKey t)) ;;
           modify (set_storage (insert "visual_erp_token" (template t))) ;;
           ret response
         else ret response
     | None => ret response
     end)
    (fun error =>
       modify clear_session ;;
       modify (set_svc (set_apiKey (JStr ""))) ;;
       throw error).

Definition testConnection : M Json :=
  try_catch
    (fun w =>
       if String.eqb (baseURL (svc w)) "" ||
          String.eqb (baseURL (svc w)) "http://localhost:3000"
       then (Returned (JObj [("success", JBool true); ("mockData", JBool true);
                             ("message", JStr "Using mock data")]), w)
       else (let* response := makeRequest "/api/health" no_options in
             ret (JObj [("success", JBool true); ("data", response)])) w)
    (fun error =>
       let* m := lift_either (error_message error) in
       ret (JObj [("success", JBool false); ("error", JStr m)])).

(** *** Mock data ("fallback when API is unavailable") *)

Definition num (z : Z) : Json := JNum (z # 1).
Definition cents (z : Z) : Json := JNum (z # 100).
Definition days (n : N) : N := (n * 24 * 60 * 60 * 1000)%N.

Definition mock_product (id : Z) (name sku : string) (stock batches : Z)
    (category : string) (price cost : Json) (description : string) : Json :=
  JObj [("id", num id); ("name", JStr name); ("sku", JStr sku);
        ("status", JStr "Active"); ("stockOnHand", num stock);
        ("batches", num batches); ("category", JStr category);
        ("price", price); ("cost", cost); ("description", JStr description);
        ("imageUrl", JNull);
        ("createdAt", JStr (toISOString_after 0));
        ("updatedAt", JStr (toISOString_after 0))].

Definition getMockProducts : Json :=
  JObj [("success", JBool true);
        ("products", JArr [
           mock_product 1 "Premium Hemp Flower - Strain A" "HF-001" 275 2
             "Hemp Flower" (num 45) (num 25)
             "High-quality hemp flower with excellent terpene profile";
           mock_product 2 "CBD Oil Tincture - 1000mg" "CBD-1000" 150 3
             "CBD Products" (cents 8999) (num 35)
             "Full-spectrum CBD oil tincture";
           mock_product 3 "Hemp Gummies - Mixed Berry" "HG-MB-25" 89 1
             "Edibles" (cents 3499) (num 12)
             "Delicious hemp-infused gummies"])].

Definition mock_customer (id : Z) (company contact email phone website
    address : string) (totalOrders orderCount : Z) : Json :=
  JObj [("id", num id); ("companyName", JStr company);
        ("contactName", JStr contact); ("email", JStr email);
        ("phone", JStr phone); ("website", JStr website);
        ("address", JStr address); ("totalOrders", num totalOrders);
        ("orderCount", num orderCount); ("status", JStr "Active");
        ("createdAt", JStr (toISOString_after 0));
        ("updatedAt", JStr (toISOString_after 0))].

Definition getMockCustomers : Json :=
  JObj [("success", JBool true);
        ("customers", JArr [
           mock_customer 1 "Green Valley Dispensary" "Sarah Johnson"
             "sarah@greenvalley.com" "+1 (555) 123-4567"
             "https://greenvalley.com" "123 Main St, Denver, CO 80202"
             125000 45;
           mock_customer 2 "Mountain Peak Wellness" "Mike Chen"
             "mike@mountainpeak.com" "+1 (555) 987-6543"
             "https://mountainpeak.com" "456 Oak Ave, Boulder, CO 80301"
             89000 32;
           mock_customer 3 "Sunrise Health Co." "Lisa Rodriguez"
             "lisa@sunrisehealth.com" "+1 (555) 456-7890"
             "https://sunrisehealth.com" "789 Pine St, Fort Collins, CO 80521"
             67500 28])].

Definition mock_line (productId : Z) (productName : string) (quantity : Z)
    (unitPrice total : Json) : Json :=
  JObj [("productId", num productId); ("productName", JStr productName);
        ("quantity", num quantity); ("unitPrice", unitPrice);
        ("total", total)].

Definition mock_quote (id : Z) (title customer : string) (customerId : Z)
    (status : string) (total items : Z) (valid_days : N)
    (lineItems : list Json) : Json :=
  JObj [("id", num id); ("title", JStr title); ("customer", JStr customer);
        ("customerId", num customerId); ("status", JStr status);
        ("total", num total); ("items", num items);
        ("validUntil", JStr (toISOString_after (days valid_days)));
        ("createdAt", JStr (toISOString_after 0));
        ("updatedAt", JStr (toISOString_after 0));
        ("lineItems", JArr lineItems)].

Definition getMockQuotes : Json :=
  JObj [("success", JBool true);
        ("quotes", JArr [
           mock_quote 1 "Q2024-001 - Green Valley Order"
             "Green Valley Dispensary" 1 "Pending" 15750 8 30
             [mock_line 1 "Premium Hemp Flower - Strain A" 50 (num 45)
                (num 2250);
              mock_line 2 "CBD Oil Tincture - 1000mg" 25 (cents 8999)
                (cents 224975)];
           mock_quote 2 "Q2024-002 - Mountain Peak Bulk"
             "Mountain Peak Wellness" 2 "Approved" 8900 5 15
             [mock_line 3 "Hemp Gummies - Mixed Berry" 100 (cents 3499)
                (num 3499)];
           mock_quote 3 "Q2024-003 - Sunrise Sample Order"
             "Sunrise Health Co." 3 "Draft" 2250 3 45
             [mock_line 1 "Premium Hemp Flower - Strain A" 10 (num 45)
                (num 450)]])].

(** *** List calls

    [getProducts], [getCustomers] and [getQuotes] are the same function up
    to the path, the key of the envelope and the mock data set.
    [queryParams] is [new URLSearchParams(filters).toString()]. *)
Definition list_call (path key : string) (mock : Json)
    (queryParams : string) : M Json :=
  try_catch
    (let endpoint :=
       path +:+ (if String.eqb queryParams "" then ""
                 else "?" +:+ queryParams) in
     let* response := makeRequest endpoint no_options in
     let* success := lift_either (read_prop response "success") in
     ret (if truthy_opt success then response
          else JObj [("success", JBool true); (key, response)]))
    (fun _ => ret mock).

Definition getProducts : string -> M Json :=
  list_call "/api/inventory/products" "products" getMockProducts.

Definition getCustomers : string -> M Json :=
  list_call "/api/customers" "customers" getMockCustomers.

Definition getQuotes : string -> M Json :=
  list_call "/api/quotes" "quotes" getMockQuotes.

(** *** Writes: the error is rethrown with a prefix *)
Definition write_call (endpoint : string) (options : Options)
    (failure : string) : M Json :=
  try_catch
    (makeRequest endpoint options)
    (fun error =>
       let* m := lift_either (error_message error) in
       throw (Err (failure +:+ m))).

Definition createQuote (quoteData : Json) : M Json :=
  write_call "/api/quotes"
    (mkOptions (Some "POST") None (Some (JSON_stringify quoteData)))
    "Failed to create quote: ".

Definition updateQuote (id : Json) (quoteData : Json) : M Json :=
  write_call ("/api/quotes/" +:+ template id)
    (mkOptions (Some "PUT") None (Some (JSON_stringify quoteData)))
    "Failed to update quote: ".

Definition deleteQuote (id : Json) : M Json :=
  write_call ("/api/quotes/" +:+ template id)
    (mkOptions (Some "DELETE") None None)
    "Failed to delete quote: ".

Definition createProduct (productData : Json) : M Json :=
  write_call "/api/inventory/products"
    (mkOptions (Some "POST") None (Some (JSON_stringify productData)))
    "Failed to create product: ".

Definition updateProduct (id : Json) (productData : Json) : M Json :=
  write_call ("/api/inventory/products/" +:+ template id)
    (mkOptions (Some "PUT") None (Some (JSON_stringify productData)))
    "Failed to update product: ".

Definition deleteProduct (id : Json) : M Json :=
  write_call ("/api/inventory/products/" +:+ template id)
    (mkOptions (Some "DELETE") None None)
    "Failed to delete product: ".

Definition createCustomer (customerData : Json) : M Json :=
  write_call "/api/customers"
    (mkOptions (Some "POST") None (Some (JSON_stringify customerData)))
    "Failed to create customer: ".

Definition updateCustomer (id : Json) (customerData : Json) : M Json :=
  write_call ("/api/customers/" +:+ template id)
    (mkOptions (Some "PUT") None (Some (JSON_stringify customerData)))
    "Failed to update customer: ".

Definition deleteCustomer (id : Json) : M Json :=
  write_call ("/api/customers/" +:+ template id)
    (mkOptions (Some "DELETE") None None)
    "Failed to delete customer: ".

Definition convertQuoteToOrder (id : Json) : M Json :=
  write_call ("/api/quotes/" +:+ template id +:+ "/convert")
    (mkOptions (Some "POST") None None)
    "Failed to convert quote: ".

(** *** Reads of one record

    [a === b] between JSON values: primitives compare by value; an object
    or an array is only equal to itself, and never to a value that comes
    from elsewhere. *)
Definition strict_eq (a b : Json) : bool :=
  match a, b with
  | JNull, JNull => true
  | JBool x, JBool y => Bool.eqb x y
  | JNum x, JNum y => Qeq_bool x y
  | JStr x, JStr y => String.eqb x y
  | _, _ => false
  end.

(** [mock[listKey].find(p => p.id === id)] *)
Definition find_by_id (mock : Json) (listKey : string) (id : Json)
    : option Json :=
  match prop mock listKey with
  | Some (JArr items) =>
      List.find (fun p => match prop p "id" with
                          | Some pid => strict_eq pid id
                          | None => false
                          end) items
  | _ => None
  end.

(** [getProduct], [getCustomer] and [getQuote] are the same function up
    to the path, the keys and the mock data set. *)
Definition item_call (path listKey itemKey notFound : string) (mock : Json)
    (id : Json) : M Json :=
  try_catch
    (makeRequest (path +:+ "/" +:+ template id) no_options)
    (fun _ =>
       ret match find_by_id mock listKey id with
           | Some item =>
               if truthy item
               then JObj [("success", JBool true); (itemKey, item)]
               else JObj [("success", JBool false); ("error", JStr notFound)]
           | None => JObj [("success", JBool false); ("error", JStr notFound)]
           end).

Definition getProduct : Json -> M Json :=
  item_call "/api/inventory/products" "products" "product"
    "Product not found" getMockProducts.

Definition getCustomer : Json -> M Json :=
  item_call "/api/customers" "customers" "customer" "Customer not found"
    getMockCustomers.

Definition getQuote : Json -> M Json :=
  item_call "/api/quotes" "quotes" "quote" "Quote not found" getMockQuotes.

(** *** Utility methods

    [truncateName(name, maxLength = 35)] on a name that is a string, or
    missing ([None]); [name.length] and [name.substring(0, maxLength)]
    count code units. *)
Definition truncateName (name : option jstring) (maxLength : nat) : jstring :=
  match name with
  | None | Some [] => units "Unnamed Item"
  | Some name =>
      if maxLength <? length name
      then take maxLength name ++ units "..."
      else name
  end.

Definition client : ApiClient := mkClient authenticate testConnection.

End Service.
End Enhanced.

(* ===================================================================== *)
(** ** [ApiService] (src/lib/api.js, the module [AuthProvider] imports) *)
(* ===================================================================== *)

Module Basic.
Section Service.
Context `{Platform}.

(** [get headers()] *)
Definition headers (s : Service) : list (string * string) :=
  ("Content-Type", "application/json") ::
  (if truthy (apiKey s)
   then [("Authorization", "Bearer " +:+ template (apiKey s))]
   else []).

Definition build_config (s : Service) (options : Options) : Config :=
  mkConfig (opt_method options)
           (match opt_headers options with
            | Some h => h
            | None => headers s
            end)
           (opt_body options).

(** [RESPONSE_MAPPERS[endpoint]], applied to data that is not [null]. *)
Definition mapper_key (endpoint : string) : option (option string) :=
  if String.eqb endpoint "/api/inventory/products" then Some (Some "products")
  else if String.eqb endpoint "/api/customers" then Some (Some "customers")
  else if String.eqb endpoint "/api/quotes" then Some (Some "quotes")
  else if String.eqb endpoint "/api/health" then Some None
  else None.

Definition apply_mapper (endpoint : string) (data : Json) : JsError + Json :=
  match mapper_key endpoint with
  | Some (Some k) =>
      match read_prop data k with
      | inl e => inl e
      | inr (Some v) => inr (if truthy v then v else data)
      | inr None => inr data
      end
  | _ => inr data
  end.

(** [errorData.message || errorData.error || errorMessage], where a body
    that does not parse, or parses to [null], leaves the default. *)
Definition error_text (r : Response) : string :=
  let default_message :=
    "HTTP " +:+ pretty (status r) +:+ ": " +:+ statusText r in
  match body r with
  | Parsed JNull | Unparsable _ => default_message
  | Parsed errorData =>
      match prop errorData "message" with
      | Some v => if truthy v then template v else
          match prop errorData "error" with
          | Some v' => if truthy v' then template v' else default_message
          | None => default_message
          end
      | None =>
          match prop errorData "error" with
          | Some v' => if truthy v' then template v' else default_message
          | None => default_message
          end
      end
  end.

Definition status_message (r : Response) : string :=
  if (status r =? 401)%N then
    "Authentication required. Please check your API credentials."
  else if (status r =? 403)%N then "Access denied. Insufficient permissions."
  else if (status r =? 404)%N then "Resource not found."
  else if (500 <=? status r)%N then "Server error. Please try again later."
  else error_text r.

Definition attempt_once (endpoint url : string) (config : Config)
    (w : World) : (JsError + Json) * World :=
  let '(o, w1) := fetch url config w in
  (match o with
   | NetworkError m => inl (Err m)
   | Responded r =>
       if negb (ok r) then inl (Err (status_message r))
       else
         match body r with
         | Parsed d => apply_mapper endpoint d
         | Unparsable m => inl (Err m)
         end
   end, w1).

Definition is_client_error_message (m : string) : bool :=
  includes m "401" || includes m "403" || includes m "400" || includes m "404".

Fixpoint attempts (remaining attempt : nat) (lastError : JsError)
    (endpoint url : string) (config : Config) (w : World)
    : Outcome Json * World :=
  match remaining with
  | 0 => (Thrown lastError, w)
  | S remaining' =>
      match attempt_once endpoint url config w with
      | (inr data, w1) => (Returned data, w1)
      | (inl error, w1) =>
          match error_message error with
          | inl type_error => (Thrown type_error, w1)
          | inr m =>
              if is_client_error_message m then (Thrown error, w1)
              else
                let w2 :=
                  if attempt <? retryAttempts (svc w1)
                  then delay (retryDelay (svc w1) * attempt) w1
                  else w1 in
                attempts remaining' (S attempt) error endpoint url config w2
          end
      end
  end.

Definition request (endpoint : string) (options : Options) : M Json :=
  fun w =>
    if negb (isOnline (svc w))
    then (Thrown (Err "No internet connection available"), w)
    else attempts (retryAttempts (svc w)) 1 ThrownUndefined endpoint
           (baseURL (svc w) +:+ endpoint) (build_config (svc w) options) w.

Definition mock_product (id name sku status : string) (stock batches : Z)
    (category : string) : Json :=
  JObj [("id", JStr id); ("name", JStr name); ("sku", JStr sku);
        ("status", JStr status); ("stockOnHand", JNum (stock # 1));
        ("batches", JNum (batches # 1)); ("category", JStr category);
        ("imageUrl", JNull)].

Definition getMockProducts : Json :=
  JArr [mock_product "1" "Premium Hemp Flower - Strain A" "HF-001" "Active"
          275 2 "Hemp Products";
        mock_product "2" "CBD Oil Tincture - 1000mg" "CBD-1000" "Active"
          150 3 "CBD Products";
        mock_product "3" "Hemp Gummies - Mixed Berry" "HG-MB" "Inactive"
          0 0 "Edibles"].

(** The development fallback is gated:
    [this.baseURL.includes('localhost') && !this.apiKey]. *)
Definition getProducts : M Json :=
  try_catch
    (request "/api/inventory/products" no_options)
    (fun error w =>
       if includes (baseURL (svc w)) "localhost" && negb (truthy (apiKey (svc w)))
       then (Returned getMockProducts, w)
       else (Thrown error, w)).

Definition healthCheck : M Json :=
  try_catch (request "/api/health" no_options) (fun error => throw error).

Definition authenticate (credentials : Json) : M Json :=
  request "/api/auth/login"
    (mkOptions (Some "POST") None (Some (JSON_stringify credentials))).

Definition testConnection : M Json :=
  try_catch
    (let* health := healthCheck in
     ret (JObj [("success", JBool true); ("data", health)]))
    (fun error =>
       let* m := lift_either (error_message error) in
       ret (JObj [("success", JBool false); ("error", JStr m)])).

Definition client : ApiClient := mkClient authenticate testConnection.

End Service.
End Basic.

(* ===================================================================== *)
(** ** [AuthProvider] (components/AuthProvider.jsx) *)
(* ===================================================================== *)

Section AuthProvider.
Context `{Platform} (apiService : ApiClient).

Definition setIsAuthenticated (b : bool) : World -> World :=
  set_auth (fun a => mkAuth b (user a) (isLoading a) (error a)).

Definition setUser (u : Json) : World -> World :=
  set_auth (fun a => mkAuth (isAuthenticated a) u (isLoading a) (error a)).

Definition setIsLoading (b : bool) : World -> World :=
  set_auth (fun a => mkAuth (isAuthenticated a) (user a) b (error a)).

Definition setError (e : option string) : World -> World :=
  set_auth (fun a => mkAuth (isAuthenticated a) (user a) (isLoading a) e).

(** [storedToken && storedUser]: both items present and not empty. *)
Definition stored_pair (w : World) : option (string * string) :=
  match localStorage w !! "visual_erp_token",
        localStorage w !! "visual_erp_user" with
  | Some storedToken, Some storedUser =>
      if negb (String.eqb storedToken "") && negb (String.eqb storedUser "")
      then Some (storedToken, storedUser)
      else None
  | _, _ => None
  end.

Definition checkAuthStatus : M unit :=
  finally
    (try_catch
       (modify (setIsLoading true) ;;
        modify (setError None) ;;
        fun w =>
          match stored_pair w with
          | Some (storedToken, storedUser) =>
              (let* connectionTest := client_testConnection apiService in
               let* success := lift_either (read_prop connectionTest "success") in
               if truthy_opt success then
                 modify (setIsAuthenticated true) ;;
                 let* parsed := lift_either (JSON_parse storedUser) in
                 modify (setUser parsed) ;;
                 modify (set_svc (set_apiKey (JStr storedToken)))
               else
                 modify clear_session ;;
                 modify (setError (Some "Session expired. Please log in again.")))
                w
          | None => (Returned tt, w)
          end)
       (fun _ => modify (setError (Some "Authentication check failed"))))
    (setIsLoading false).

Definition login (credentials : Json) : M Json :=
  finally
    (try_catch
       (modify (setIsLoading true) ;;
        modify (setError None) ;;
        let* response := client_authenticate apiService credentials in
        let* token := lift_either (read_prop response "token") in
        match token, prop response "user" with
        | Some t, Some u =>
            if truthy t && truthy u then
              modify (set_storage (insert "visual_erp_token" (template t))) ;;
              modify (set_storage (insert "visual_erp_user" (JSON_stringify u))) ;;
              modify (set_svc (set_apiKey t)) ;;
              modify (setIsAuthenticated true) ;;
              modify (setUser u) ;;
              ret (JObj [("success", JBool true)])
            else throw (Err "Invalid response from authentication server")
        | _, _ => throw (Err "Invalid response from authentication server")
        end)
       (fun error =>
          let* m := lift_either (error_message error) in
          modify (setError (Some (if String.eqb m "" then "Login failed" else m))) ;;
          ret (JObj [("success", JBool false); ("error", JStr m)])))
    (setIsLoading false).

(** [logout] is synchronous. *)
Definition logout (w : World) : World :=
  setError None
    (setUser JNull
       (setIsAuthenticated false
          (set_svc (set_apiKey (JStr "")) (clear_session w)))).

End AuthProvider.

(* ===================================================================== *)
(** ** [QuoteCRUD] (components/QuoteCRUD.jsx) *)
(* ===================================================================== *)

Module QuoteCRUD.

(** A line of the form.  [quantity] and [unitPrice] are numbers: the
    inputs write [parseInt(value) || 0] and [parseFloat(value) || 0], the
    latter in steps of 0.01. *)
Record LineItem : Type := mkLineItem {
  productId : jstring;
  productName : jstring;
  quantity : number;
  unitPrice : number
}.

(** The values held by the keys of [formData] and [quoteData]. *)
Inductive FormValue : Type :=
| FStr (s : jstring)
| FNum (x : number)
| FItems (items : list LineItem).

(** The initial [formData], also what [resetForm] installs. *)
Definition empty_form : gmap string FormValue :=
  <["title" := FStr []]>
    (<["customerId" := FStr []]>
       (<["status" := FStr (units "Draft")]>
          (<["validUntil" := FStr []]>
             (<["lineItems" := FItems []]> ∅)))).

(** [handleInputChange]: [{ ...prev, [field]: value }] *)
Definition handleInputChange (field : string) (value : FormValue)
    (formData : gmap string FormValue) : gmap string FormValue :=
  <[field := value]> formData.

Definition form_items (formData : gmap string FormValue) : list LineItem :=
  match formData !! "lineItems" with
  | Some (FItems items) => items
  | _ => []
  end.

(** [addLineItem] *)
Definition addLineItem (formData : gmap string FormValue)
    : gmap string FormValue :=
  <["lineItems" :=
      FItems (form_items formData
              ++ [mkLineItem [] [] (number_of_Z 1) (number_of_Z 0)])]>
    formData.

(** [removeLineItem]: [splice(index, 1)] on a copy. *)
Definition removeLineItem (index : nat) (formData : gmap string FormValue)
    : gmap string FormValue :=
  <["lineItems" := FItems (delete index (form_items formData))]> formData.

(** The code units that [trim] strips and [parseInt] skips: the white
    space and line terminators of ECMAScript (TAB, LF, VT, FF, CR, SP,
    NBSP, U+1680, U+2000 to U+200A, LS, PS, U+202F, U+205F, U+3000 and
    the byte order mark). *)
Definition is_space (c : N) : bool :=
  existsb (N.eqb c)
    [9; 10; 11; 12; 13; 32; 160; 5760; 8232; 8233; 8239; 8287; 12288;
     65279]%N
  || ((8192 <=? c)%N && (c <=? 8202)%N).

(** [!s.trim()]: nothing but white space. *)
Definition blank (s : jstring) : bool := forallb is_space s.

(** [!v], negated: a string is truthy unless empty, a number unless it is
    a zero or [NaN], an array always. *)
Definition form_truthy (v : FormValue) : bool :=
  match v with
  | FStr s => negb (length s =? 0)
  | FNum (S754_zero _) | FNum S754_nan => false
  | FNum _ => true
  | FItems _ => true
  end.

(** A key that is missing reads [undefined]. *)
Definition field_truthy (o : option FormValue) : bool :=
  match o with
  | Some v => form_truthy v
  | None => false
  end.

(** [validateForm]: [true] when no error was recorded.  A form whose
    [title] is not a string or whose [lineItems] is not an array makes the
    handler throw before anything is submitted, which is [false] here. *)
Definition validateForm (formData : gmap string FormValue) : bool :=
  match formData !! "title", formData !! "lineItems" with
  | Some (FStr title), Some (FItems items) =>
      negb (blank title) &&
      field_truthy (formData !! "customerId") &&
      field_truthy (formData !! "validUntil") &&
      negb (length items =? 0)
  | _, _ => false
  end.

(** The value of a digit in the given radix (10 or 16). *)
Definition digit_value (radix : Z) (c : N) : option Z :=
  if (48 <=? c)%N && (c <=? 57)%N then Some (Z.of_N (c - 48))
  else if (radix =? 16)%Z && (97 <=? c)%N && (c <=? 102)%N
  then Some (Z.of_N (c - 87))
  else if (radix =? 16)%Z && (65 <=? c)%N && (c <=? 70)%N
  then Some (Z.of_N (c - 55))
  else None.

Fixpoint leading_digits (radix : Z) (s : jstring) (acc : option Z)
    : option Z :=
  match s with
  | [] => acc
  | c :: s' =>
      match digit_value radix c with
      | Some d =>
          leading_digits radix s' (Some (radix * default 0%Z acc + d)%Z)
      | None => acc
      end
  end.

Fixpoint skip_spaces (s : jstring) : jstring :=
  match s with
  | c :: s' => if is_space c then skip_spaces s' else s
  | [] => s
  end.

(** The digits after the sign: hexadecimal after a [0x] or [0X] prefix,
    decimal otherwise. *)
Definition parse_magnitude (s : jstring) : option Z :=
  match s with
  | zero :: x :: s' =>
      if (zero =? 48)%N && ((x =? 120)%N || (x =? 88)%N)
      then leading_digits 16 s' None
      else leading_digits 10 s None
  | _ => leading_digits 10 s None
  end.

(** [parseInt(s)] with no radix: leading white space, a sign, then digits;
    [NaN] when there is no digit, otherwise the number nearest to the
    integer read ([-0] for a negative zero).  ECMAScript lets an
    implementation ignore decimal digits after the twentieth; they are
    kept here. *)
Definition parseInt_string (s : jstring) : number :=
  let trimmed := skip_spaces s in
  let '(negative, digits) :=
    match trimmed with
    | sign :: s' =>
        if (sign =? 45)%N then (true, s')
        else if (sign =? 43)%N then (false, s')
        else (false, trimmed)
    | [] => (false, trimmed)
    end in
  match parse_magnitude digits with
  | Some n =>
      binary_normalize 53 1024 (if negative then - n else n)%Z 0 negative
  | None => NaN
  end.

(** The amount of a line: [item.quantity * item.unitPrice]. *)
Definition line_amount (item : LineItem) : number :=
  number_mul (quantity item) (unitPrice item).

(** [lineItems.reduce((sum, item) => sum + (item.quantity * item.unitPrice), 0)] *)
Definition reduce_total (items : list LineItem) : number :=
  fold_left
    (fun sum item => number_add sum (number_mul (quantity item) (unitPrice item)))
    items (number_of_Z 0).

(** The call [handleSubmit] makes on the service. *)
Inductive Submission : Type :=
| UpdateQuote (id : Json) (data : gmap string FormValue)
| CreateQuote (data : gmap string FormValue).

Definition submitted_data (s : Submission) : gmap string FormValue :=
  match s with
  | UpdateQuote _ data => data
  | CreateQuote data => data
  end.

(** The total as the data model words it: the sum of the amounts of the
    lines.  The sum of numbers depends on the order in which they are
    added: the lines are added in their order, each to the sum of the
    lines before it, starting from 0. *)
Fixpoint add_lines (sum : number) (items : list LineItem) : number :=
  match items with
  | [] => sum
  | item :: rest => add_lines (number_add sum (line_amount item)) rest
  end.

Definition sum_of_lines (items : list LineItem) : number :=
  add_lines (number_of_Z 0) items.

(** [resetForm] installs the initial form. *)
Definition resetForm : gmap string FormValue := empty_form.

Section Form.
Context `{NumberFormat}.

(** [items.toString()]: the elements, each an object, joined by commas. *)
Fixpoint join_objects (items : list LineItem) : jstring :=
  match items with
  | [] => []
  | [_] => units "[object Object]"
  | _ :: rest => units "[object Object]," ++ join_objects rest
  end.

(** [v.toString()], also the string [parseInt(v)] reads. *)
Definition toString (v : FormValue) : jstring :=
  match v with
  | FStr s => s
  | FNum x => Number_toString x
  | FItems items => join_objects items
  end.

(** [parseInt(v)]: a missing key reads [undefined], which has no digit. *)
Definition parseInt (v : option FormValue) : number :=
  match v with
  | Some v => parseInt_string (toString v)
  | None => NaN
  end.

(** [{ ...formData, customerId: parseInt(formData.customerId), total: ... }] *)
Definition quoteData (formData : gmap string FormValue)
    : gmap string FormValue :=
  <["total" := FNum (reduce_total (form_items formData))]>
    (<["customerId" := FNum (parseInt (formData !! "customerId"))]>
       formData).

(** [handleSubmit] up to the call: nothing is sent when validation fails;
    [editingQuote] holds the [id] of the quote being edited, if any. *)
Definition handleSubmit (formData : gmap string FormValue)
    (editingQuote : option Json) : option Submission :=
  if validateForm formData then
    Some match editingQuote with
         | Some id => UpdateQuote id (quoteData formData)
         | None => CreateQuote (quoteData formData)
         end
  else None.

(** [handleEdit(quote)]: the form filled from a quote of the list.
    [iso_day v] is [new Date(v).toISOString().split('T')[0]], which throws
    ([None]) on a value that is not a date. *)
Definition handleEdit (iso_day : FormValue -> option jstring)
    (quote : gmap string FormValue) : option (gmap string FormValue) :=
  match
    match quote !! "validUntil" with
    | Some v => if form_truthy v then iso_day v else Some []
    | None => Some []
    end
  with
  | None => None
  | Some day =>
      Some
        (<["lineItems" :=
             match quote !! "lineItems" with
             | Some v => if form_truthy v then v else FItems []
             | None => FItems []
             end]>
           (<["validUntil" := FStr day]>
              (<["status" :=
                   match quote !! "status" with
                   | Some v => if form_truthy v then v else FStr (units "Draft")
                   | None => FStr (units "Draft")
                   end]>
                 (<["customerId" :=
                      FStr match quote !! "customerId" with
                           | Some v => toString v
                           | None => []
                           end]>
                    match quote !! "title" with
                    | Some t => <["title" := t]> ∅
                    | None => ∅
                    end))))
  end.

End Form.

End QuoteCRUD.

(* ===================================================================== *)
(** ** [AnalyticsService] (src/lib/analytics.js) *)
(* ===================================================================== *)

Module Analytics.
Section Service.
Context `{Platform}.

(** The fields of the analytics singleton; [apiURL] is [VITE_API_URL]
    (empty when unset), [userAgent] and [href] are what the browser
    reports. *)
Record Service : Type := mkService {
  isProduction : bool;
  apiURL : string;
  userId : Json;
  sessionId : string;
  userAgent : string;
  href : string;
  errorQueue : list Json;
  eventQueue : list Json;
  isOnline : bool
}.

Definition set_errorQueue (q : list Json) (a : Service) : Service :=
  mkService (isProduction a) (apiURL a) (userId a) (sessionId a)
            (userAgent a) (href a) q (eventQueue a) (isOnline a).

Definition set_eventQueue (q : list Json) (a : Service) : Service :=
  mkService (isProduction a) (apiURL a) (userId a) (sessionId a)
            (userAgent a) (href a) (errorQueue a) q (isOnline a).

(** [[...v]]: an array spreads to its elements, a string to its
    characters, anything else throws. *)
Definition spread (v : Json) : JsError + list Json :=
  match v with
  | JArr items => inr items
  | JStr s => inr ((fun c => JStr (String c EmptyString)) <$> String.list_ascii_of_string s)
  | _ => inl (Err "value is not iterable")
  end.

(** [[...(v || [])]] for a property that may be missing. *)
Definition spread_or_empty (v : option Json) : JsError + list Json :=
  match v with
  | Some x => if truthy x then spread x else inr []
  | None => inr []
  end.

(** [endpoint.replace(/\//g, '_')] *)
Fixpoint slashes_to_underscores (s : string) : string :=
  match s with
  | EmptyString => EmptyString
  | String c s' =>
      String (if Ascii.eqb c "/"%char then "_"%char else c)
             (slashes_to_underscores s')
  end.

(** [updated.slice(-100)]: the last 100 elements. *)
Definition last_100 (l : list Json) : list Json :=
  drop (length l - 100) l.

(** The body of the [try] of [storeLocally]: the string to store, or what
    is thrown. *)
Definition stored_update (old : option string) (data : Json)
    : JsError + string :=
  match JSON_parse (match old with
                    | Some s => if String.eqb s "" then "[]" else s
                    | None => "[]"
                    end) with
  | inl e => inl e
  | inr existing =>
      match spread existing with
      | inl e => inl e
      | inr l0 =>
          match spread_or_empty (prop data "errors") with
          | inl e => inl e
          | inr l1 =>
              match spread_or_empty (prop data "events") with
              | inl e => inl e
              | inr l2 =>
                  inr (JSON_stringify (JArr (last_100 (l0 ++ l1 ++ l2))))
              end
          end
      end
  end.

(** [storeLocally(endpoint, data)]; a failure is only logged. *)
Definition storeLocally (endpoint : string) (data : Json)
    (w : World) : World :=
  let key := "analytics_" +:+ slashes_to_underscores endpoint in
  match stored_update (localStorage w !! key) data with
  | inr text => set_storage (insert key text) w
  | inl _ => w
  end.

(** [sendData(endpoint, data)]: stored locally outside production or when
    no API is configured, posted otherwise. *)
Definition sendData (a : Service) (endpoint : string) (data : Json)
    : M unit :=
  fun w =>
    if negb (isProduction a) || String.eqb (apiURL a) ""
    then (Returned tt, storeLocally endpoint data w)
    else
      let '(o, w1) :=
        fetch (apiURL a +:+ endpoint)
              (mkConfig (Some "POST") [("Content-Type", "application/json")]
                        (Some (JSON_stringify data))) w in
      match o with
      | NetworkError m => (Thrown (Err m), w1)
      | Responded r =>
          if negb (ok r)
          then (Thrown (Err ("Analytics API error: " +:+ pretty (status r))),
                w1)
          else (Returned tt, w1)
      end.

(** [flushErrorQueue]: the queue is emptied before the data is sent, and
    the errors are put back in front when sending fails. *)
Definition flushErrorQueue (a : Service) (w : World) : Service * World :=
  match errorQueue a with
  | [] => (a, w)
  | errors =>
      let a1 := set_errorQueue [] a in
      match sendData a1 "/api/analytics/errors"
                     (JObj [("errors", JArr errors)]) w with
      | (Thrown _, w1) => (set_errorQueue (errors ++ errorQueue a1) a1, w1)
      | (_, w1) => (a1, w1)
      end
  end.

Definition flushEventQueue (a : Service) (w : World) : Service * World :=
  match eventQueue a with
  | [] => (a, w)
  | events =>
      let a1 := set_eventQueue [] a in
      match sendData a1 "/api/analytics/events"
                     (JObj [("events", JArr events)]) w with
      | (Thrown _, w1) => (set_eventQueue (events ++ eventQueue a1) a1, w1)
      | (_, w1) => (a1, w1)
      end
  end.

End Service.
End Analytics.

(* ===================================================================== *)
(** ** Sample platforms and worlds *)
(* ===================================================================== *)

(** A platform whose backend gives the same answer to every fetch. *)
Definition backend (answer : FetchOutcome) : Platform :=
  {| fetch_result := fun _ _ _ => answer;
     JSON_stringify := fun v => match v with JStr s => s | _ => "{}" end;
     JSON_parse := fun s => inr (JStr s);
     String_of := fun _ => "[object Object]";
     toISOString_after := fun _ => "2024-01-01T00:00:00.000Z" |}.

(** A platform whose backend answers the n-th fetch with the n-th element
    of a script, and is unreachable afterwards. *)
Definition scripted (script : list FetchOutcome) : Platform :=
  {| fetch_result := fun n _ _ =>
       default (NetworkError "Failed to fetch") (script !! n);
     JSON_stringify := fun v => match v with JStr s => s | _ => "{}" end;
     JSON_parse := fun s => inr (JStr s);
     String_of := fun _ => "[object Object]";
     toISOString_after := fun _ => "2024-01-01T00:00:00.000Z" |}.

Definition unreachable : Platform := backend (NetworkError "Failed to fetch").

Definition http_error (code : N) (text : string) (b : Body) : FetchOutcome :=
  Responded (mkResponse false code text b).

Definition http_ok (data : Json) : FetchOutcome :=
  Responded (mkResponse true 200 "OK" (Parsed data)).

(** Backends that answer every request with an error status. *)
Definition unauthorized_backend : Platform :=
  backend (http_error 401 "Unauthorized" (Parsed (JObj []))).

Definition not_found_backend : Platform :=
  backend (http_error 404 "Not Found" (Parsed (JObj []))).

(** A server error whose message quotes another status code. *)
Definition quoting_answer : FetchOutcome :=
  http_error 500 "Internal Server Error"
    (Parsed (JObj [("message", JStr "upstream said 401")])).

Definition quoting_backend : Platform := backend quoting_answer.

(** A deployment against a real backend, with a token configured. *)
Definition production_world : World :=
  initial_world "https://erp.example.com" "secret-token" true ∅.

(** The development default: no [VITE_API_URL], no [VITE_API_KEY]. *)
Definition dev_world : World := initial_world "" "" true ∅.

Definition offline_world : World :=
  initial_world "https://erp.example.com" "" false ∅.

Definition anonymous_world : World :=
  initial_world "https://erp.example.com" "" true ∅.

(** A backend that is unreachable for the first replay and refuses the
    second request with a JSON error body. *)
Definition validation_error : Json :=
  JObj [("success", JBool false); ("error", JStr "Title already in use")].

Definition flaky_backend : Platform :=
  scripted [NetworkError "Failed to fetch";
            http_error 422 "Unprocessable Entity" (Parsed validation_error)].

(** Two quotes created while offline. *)
Definition queued_world : World :=
  snd (@Enhanced.createQuote flaky_backend (JStr "second quote")
         (snd (@Enhanced.createQuote flaky_backend (JStr "first quote")
                 offline_world))).

(** A local backend that answers the list request with a failure
    envelope. *)
Definition failure_envelope : Json :=
  JObj [("success", JBool false); ("error", JStr "Database unavailable")].

Definition failing_envelope_backend : Platform :=
  backend (http_ok failure_envelope).

(** A login endpoint that answers with a token but no user record. *)
Definition token_only_backend : Platform :=
  backend (http_ok (JObj [("token", JStr "abc")])).

(** A login endpoint that answers with a token and a user record. *)
Definition login_response : Json :=
  JObj [("token", JStr "abc"); ("user", JObj [("username", JStr "t")])].

Definition login_backend : Platform := backend (http_ok login_response).

Definition credentials : Json :=
  JObj [("username", JStr "t"); ("password", JStr "t")].

(** The provider mounted again in a page whose client holds the token of
    the stored session. *)
Definition remounted_world : World :=
  mkWorld (set_apiKey (JStr "abc")
             (construct "https://erp.example.com" "" true))
          ∅ 0
          (<["visual_erp_user" := "t"]> (<["visual_erp_token" := "abc"]> ∅))
          initial_auth 0 [].

(** A backend that fails once and then answers the list request. *)
Definition products_envelope : Json :=
  JObj [("success", JBool true); ("products", JArr [JStr "hemp flower"])].

Definition recovering_backend : Platform :=
  scripted [NetworkError "Network error"; http_ok products_envelope].

Definition products_backend : Platform := backend (http_ok products_envelope).

(** A backend whose health probe succeeds. *)
Definition healthy_backend : Platform :=
  backend (http_ok (JObj [("status", JStr "ok")])).

(** A healthy backend in a browser whose stored user does not parse. *)
Definition corrupt_storage_platform : Platform :=
  {| fetch_result := fun _ _ _ => http_ok (JObj [("status", JStr "ok")]);
     JSON_stringify := fun v => match v with JStr s => s | _ => "{}" end;
     JSON_parse := fun _ => inl (Err "Unexpected token u in JSON");
     String_of := fun _ => "[object Object]";
     toISOString_after := fun _ => "2024-01-01T00:00:00.000Z" |}.

(** The decimal fraction [cents / 100] as a number, the way a price typed
    in the form is read. *)
Definition price (cents : Z) : number :=
  SFdiv 53 1024 (number_of_Z cents) (number_of_Z 100).

(** A quote of the list, with a total that is not the sum of its lines. *)
Definition listed_quote : gmap string QuoteCRUD.FormValue :=
  <["total" := QuoteCRUD.FNum (number_of_Z 15750)]>
    (<["lineItems" := QuoteCRUD.FItems
                        [QuoteCRUD.mkLineItem (units "1") (units "Flower")
                           (number_of_Z 50) (number_of_Z 45);
                         QuoteCRUD.mkLineItem (units "2") (units "Tincture")
                           (number_of_Z 3) (price 8999)]]>
       (<["validUntil" := QuoteCRUD.FStr (units "2024-12-31T00:00:00.000Z")]>
          (<["status" := QuoteCRUD.FStr (units "Pending")]>
             (<["customerId" := QuoteCRUD.FNum (number_of_Z 12)]>
                (<["title" := QuoteCRUD.FStr (units "Q2024-001")]> ∅))))).

(** The day of an ISO time stamp: its first ten characters. *)
Definition first_ten (v : QuoteCRUD.FormValue) : option jstring :=
  match v with
  | QuoteCRUD.FStr s => Some (take 10 s)
  | _ => None
  end.

(** A printer of numbers that writes the integer part of a finite number
    in decimal: what [Number.prototype.toString] writes for an integer
    below 10^21. *)
Definition integer_format : NumberFormat :=
  {| Number_toString := fun x =>
       match x with
       | S754_zero _ => units "0"
       | S754_nan => units "NaN"
       | S754_infinity s => units (if s then "-Infinity" else "Infinity")
       | S754_finite s m e =>
           units (pretty ((if s then -1 else 1) * Z.shiftl (Z.pos m) e)%Z)
       end |}.

(** The analytics service of a production build, online, with two errors
    waiting. *)
Definition production_analytics : Analytics.Service :=
  Analytics.mkService true "https://erp.example.com" JNull "session_1"
    "Mozilla/5.0" "https://app.example.com/" [JStr "first"; JStr "second"]
    [] true.

(** A platform whose JSON codec handles arrays of strings written as
    their elements joined by commas (enough for the stored analytics of
    the samples). *)
Definition dev_platform : Platform :=
  {| fetch_result := fun _ _ _ => NetworkError "Failed to fetch";
     JSON_stringify := fun v =>
       match v with
       | JArr items =>
           String.concat ","
             ((fun i => match i with JStr s => s | _ => "?" end) <$> items)
       | JStr s => s
       | _ => "{}"
       end;
     JSON_parse := fun s =>
       if String.eqb s "[]" then inr (JArr []) else inr (JArr [JStr s]);
     String_of := fun _ => "[object Object]";
     toISOString_after := fun _ => "2024-01-01T00:00:00.000Z" |}.

(** A quote form with two lines and a stale [total] of 999 left in the
    form state. *)
Definition stale_form : gmap string QuoteCRUD.FormValue :=
  <["total" := QuoteCRUD.FNum (number_of_Z 999)]>
    (<["lineItems" := QuoteCRUD.FItems
                        [QuoteCRUD.mkLineItem (units "1") (units "Flower")
                           (number_of_Z 2) (number_of_Z 10);
                         QuoteCRUD.mkLineItem (units "2") (units "Gummies")
                           (number_of_Z 1) (number_of_Z 5)]]>
       (<["validUntil" := QuoteCRUD.FStr (units "2024-12-31")]>
          (<["customerId" := QuoteCRUD.FStr (units "7")]>
             (<["title" := QuoteCRUD.FStr (units "Q2024-004")]>
                QuoteCRUD.empty_form)))).

(** A form with one line of three units at 89.99. *)
Definition decimal_form : gmap string QuoteCRUD.FormValue :=
  <["lineItems" := QuoteCRUD.FItems
                     [QuoteCRUD.mkLineItem (units "2") (units "Tincture")
                        (number_of_Z 3) (price 8999)]]>
    (<["validUntil" := QuoteCRUD.FStr (units "2024-12-31")]>
       (<["customerId" := QuoteCRUD.FStr (units "7")]>
          (<["title" := QuoteCRUD.FStr (units "Q2024-005")]>
             QuoteCRUD.empty_form))).

(* ===================================================================== *)
(** ** Vocabulary of the statements *)
(* ===================================================================== *)

(** [makeRequest] sends the request instead of queueing it. *)
Definition sent (w : World) (options : Options) : Prop :=
  isOnline (svc w) = true \/ opt_method options = Some "GET".

(** The fetches of a trace, and its timer delays, in order. *)
Definition fetch_events (t : list Event) : list (string * Config) :=
  omap (fun e => match e with
                 | EvFetch url config => Some (url, config)
                 | EvDelay _ => None
                 end) t.

Definition delay_events (t : list Event) : list nat :=
  omap (fun e => match e with
                 | EvDelay ms => Some ms
                 | EvFetch _ _ => None
                 end) t.

(** What a run of the retry loop adds to the trace when all of its
    [remaining] attempts, numbered from [attempt], fail and are retried:
    a fetch per attempt and, after each attempt but the one numbered
    [retryAttempts], a delay of [retryDelay * attempt]. *)
Fixpoint retry_trace (url : string) (config : Config)
    (attempts_limit delay_base remaining attempt : nat) : list Event :=
  match remaining with
  | 0 => []
  | S remaining' =>
      EvFetch url config ::
      (if attempt <? attempts_limit then [EvDelay (delay_base * attempt)]
       else []) ++
      retry_trace url config attempts_limit delay_base remaining' (S attempt)
  end.

(** A transient failure: the network fails, or the backend answers 5xx. *)
Definition transient (o : FetchOutcome) : Prop :=
  match o with
  | NetworkError _ => True
  | Responded r => ok r = false /\ (500 <= status r < 600)%N
  end.

Definition is_pending (p : option PromiseState) : bool :=
  match p with
  | Some PendingP => true
  | _ => false
  end.

(** The handles of the queue are distinct promises, all pending and all
    allocated. *)
Definition queue_wf (w : World) : Prop :=
  NoDup (q_handle <$> requestQueue (svc w)) /\
  Forall (fun r => is_pending (promises w !! q_handle r) = true /\
                   q_handle r < next_promise w)
         (requestQueue (svc w)).

(** The fetch a queued request is replayed with. *)
Definition replay_event (r : QueuedRequest) : Event :=
  EvFetch (q_url r) (q_config r).

(** A computation that leaves [localStorage] alone. *)
Definition keeps_storage {A} (c : M A) : Prop :=
  forall w, localStorage (snd (c w)) = localStorage w.

(** The stored session: a stored user comes with a stored, non-empty
    token. *)
Definition stored_session_ok (w : World) : Prop :=
  is_Some (localStorage w !! "visual_erp_user") ->
  exists t, localStorage w !! "visual_erp_token" = Some t /\ t <> "".

(** The token the client sends and the stored token are in step: a truthy
    [apiKey] is stored under the token key, a falsy one goes with no stored
    token. *)
Definition token_in_step `{Platform} (w : World) : Prop :=
  localStorage w !! "visual_erp_token"
  = if truthy (apiKey (svc w)) then Some (template (apiKey (svc w)))
    else None.

Section SessionStates.
Context `{Platform}.





End SessionStates.

(** A failed attempt that the retry loop does not take for an
    authentication error. *)
Definition retried_failure `{Platform} (o : FetchOutcome) : Prop :=
  exists m,
    Enhanced.attempt_result o = inl (Err m) /\
    Enhanced.is_auth_message m = false.

(** What the [try] of [ApiService.request] returns ([inr]) or throws
    ([inl]), given what [fetch] brought. *)
Definition basic_caught `{Platform} (endpoint : string) (o : FetchOutcome)
    : JsError + Json :=
  match o with
  | NetworkError m => inl (Err m)
  | Responded r =>
      if negb (ok r) then inl (Err (Basic.status_message r))
      else
        match body r with
        | Parsed d => Basic.apply_mapper endpoint d
        | Unparsable m => inl (Err m)
        end
  end.

(** The statuses to which [ApiService.request] gives a message of its
    own. *)
Definition named_status (r : Response) : Prop :=
  status r = 401%N \/ status r = 403%N \/ status r = 404%N \/
  (500 <= status r)%N.

(** A string of decimal digits only. *)
Fixpoint all_digits (s : jstring) : bool :=
  match s with
  | [] => true
  | c :: s' =>
      match QuoteCRUD.digit_value 10 c with
      | Some _ => all_digits s'
      | None => false
      end
  end.

(** A finite number whose exponent is not below the least exponent of a
    binary64 value, as the results of [+] and [*] are. *)
Definition above_emin (x : number) : Prop :=
  match x with
  | S754_finite _ _ e => (-1074 <= e)%Z
  | _ => True
  end.

(* ===================================================================== *)
(** * Theorems *)
(* ===================================================================== *)

(** ** The quote form *)

Module NumberFacts.
#[local] Open Scope Z_scope.

Lemma fexp_double (k : Z) : fexp 53 1024 k = Z.max (k - 53) (-1074).
Proof. reflexivity. Qed.

Lemma digits2_pos_lower (m : positive) :
  2 ^ (Zpos (digits2_pos m) - 1) <= Zpos m.
Proof.
  induction m as [m IH|m IH|]; simpl digits2_pos.
  - rewrite Pos2Z.inj_succ. replace (Z.succ (Zpos (digits2_pos m)) - 1)
      with (Z.succ (Zpos (digits2_pos m) - 1)) by lia.
    rewrite Z.pow_succ_r by lia. lia.
  - rewrite Pos2Z.inj_succ. replace (Z.succ (Zpos (digits2_pos m)) - 1)
      with (Z.succ (Zpos (digits2_pos m) - 1)) by lia.
    rewrite Z.pow_succ_r by lia. lia.
  - simpl. lia.
Qed.

Lemma shr_1_m (mrs : shr_record) :
  0 <= shr_m mrs -> shr_m (shr_1 mrs) = shr_m mrs / 2.
Proof.
  destruct mrs as [m r s]. cbn [shr_m]. intros Hm.
  destruct m as [|[p|p|]|p]; cbn [shr_1 shr_m]; try lia.
  - reflexivity.
  - apply Z.div_unique with 1; lia.
  - apply Z.div_unique with 0; lia.
  - reflexivity.
Qed.

Lemma iter_shr_1_m (p : positive) (mrs : shr_record) :
  0 <= shr_m mrs ->
  shr_m (iter_pos shr_1 p mrs) = shr_m mrs / 2 ^ Zpos p.
Proof.
  revert mrs. induction p as [p IH|p IH|]; intros mrs Hm; simpl iter_pos.
  - assert (H1 : 0 <= shr_m (shr_1 mrs)).
    { rewrite shr_1_m by done. apply Z.div_pos; lia. }
    assert (H2 : 0 <= shr_m (iter_pos shr_1 p (shr_1 mrs))).
    { rewrite IH by done. apply Z.div_pos; [done|]. apply Z.pow_pos_nonneg; lia. }
    rewrite IH, IH, shr_1_m by done.
    assert (Hpow : 0 < 2 ^ Z.pos p) by (apply Z.pow_pos_nonneg; lia).
    rewrite !Z.div_div by lia.
    f_equal.
    replace (Z.pos p~1) with (1 + Z.pos p + Z.pos p) by lia.
    rewrite !Z.pow_add_r by lia. lia.
  - assert (H2 : 0 <= shr_m (iter_pos shr_1 p mrs)).
    { rewrite IH by done. apply Z.div_pos; [done|]. apply Z.pow_pos_nonneg; lia. }
    rewrite IH, IH by done.
    assert (Hpow : 0 < 2 ^ Z.pos p) by (apply Z.pow_pos_nonneg; lia).
    rewrite !Z.div_div by lia.
    f_equal.
    replace (Z.pos p~0) with (Z.pos p + Z.pos p) by lia.
    rewrite !Z.pow_add_r by lia. lia.
  - rewrite shr_1_m by done. reflexivity.
Qed.

Lemma shr_record_of_loc_m (m : Z) (l : location) :
  shr_m (shr_record_of_loc m l) = m.
Proof. by destruct l as [|[]]. Qed.

(** Shifting a positive mantissa to its place leaves it positive when the
    exponent is in range, and never leaves the exponent below the least
    one. *)
Lemma shr_fexp_exponent (m e : Z) (l : location) :
  -1074 <= snd (shr_fexp 53 1024 m e l).
Proof.
  unfold shr_fexp, shr. rewrite fexp_double.
  destruct (Z.max (Zdigits2 m + e - 53) (-1074) - e) eqn:Hn; simpl; lia.
Qed.

Lemma shr_fexp_positive (m : positive) (e : Z) (l : location) :
  -1074 <= e ->
  0 < shr_m (fst (shr_fexp 53 1024 (Zpos m) e l)).
Proof.
  intros He. unfold shr_fexp, shr. rewrite fexp_double. simpl Zdigits2.
  destruct (Z.max (Zpos (digits2_pos m) + e - 53) (-1074) - e) as [|p|p] eqn:Hn;
    simpl fst; rewrite ?shr_record_of_loc_m; try lia.
  rewrite iter_shr_1_m by (rewrite shr_record_of_loc_m; lia).
  rewrite shr_record_of_loc_m.
  pose proof (digits2_pos_lower m) as Hd.
  apply Z.div_str_pos. split; [apply Z.pow_pos_nonneg; lia|].
  etransitivity; [|exact Hd].
  apply Z.pow_le_mono_r; lia.
Qed.

Lemma round_nearest_even_positive (m : Z) (l : location) :
  0 < m -> 0 < round_nearest_even m l.
Proof.
  intros Hm. destruct l as [|[]]; simpl; try lia.
  destruct (Z.even m); lia.
Qed.

Lemma binary_round_aux_above_emin (s : bool) (m e : Z) (l : location) :
  above_emin (binary_round_aux 53 1024 s m e l).
Proof.
  unfold binary_round_aux.
  destruct (shr_fexp 53 1024 m e l) as [mrs' e'].
  match goal with |- context [shr_fexp 53 1024 ?m2 e' loc_Exact] =>
    pose proof (shr_fexp_exponent m2 e' loc_Exact) as He;
    destruct (shr_fexp 53 1024 m2 e' loc_Exact) as [mrs'' e''] end.
  simpl in He. destruct (shr_m mrs''); try exact I.
  destruct (e'' <=? 1024 - 53); [exact He | exact I].
Qed.

Lemma binary_round_aux_not_zero (s s' : bool) (m : positive) (e : Z)
    (l : location) :
  -1074 <= e -> binary_round_aux 53 1024 s (Zpos m) e l <> S754_zero s'.
Proof.
  intros He. unfold binary_round_aux.
  pose proof (shr_fexp_positive m e l He) as Hm.
  pose proof (shr_fexp_exponent (Zpos m) e l) as He'.
  destruct (shr_fexp 53 1024 (Zpos m) e l) as [mrs' e']. simpl in Hm, He'.
  pose proof (round_nearest_even_positive _ (loc_of_shr_record mrs') Hm) as Hr.
  destruct (round_nearest_even (shr_m mrs') (loc_of_shr_record mrs'))
    as [|m2|m2]; try lia.
  pose proof (shr_fexp_positive m2 e' loc_Exact He') as Hm2.
  destruct (shr_fexp 53 1024 (Zpos m2) e' loc_Exact) as [mrs'' e''].
  simpl in Hm2. destruct (shr_m mrs''); try lia.
  by destruct (e'' <=? 1024 - 53).
Qed.

Lemma binary_round_not_zero (s s' : bool) (m : positive) (e : Z) :
  -1074 <= e -> binary_round 53 1024 s m e <> S754_zero s'.
Proof.
  intros He. unfold binary_round, shl_align. rewrite fexp_double.
  destruct (Z.max (Zpos (digits2_pos m) + e - 53) (-1074) - e) eqn:Hn;
    apply binary_round_aux_not_zero; lia.
Qed.

Lemma binary_round_above_emin (s : bool) (m : positive) (e : Z) :
  above_emin (binary_round 53 1024 s m e).
Proof.
  unfold binary_round.
  destruct (shl_align _ _ _) as [mz ez]. apply binary_round_aux_above_emin.
Qed.

Lemma number_mul_above_emin (x y : number) : above_emin (number_mul x y).
Proof.
  destruct x as [sx|sx| |sx mx ex], y as [sy|sy| |sy my ey]; try exact I.
  apply binary_round_aux_above_emin.
Qed.

Lemma number_add_above_emin (x y : number) :
  above_emin x -> above_emin y -> above_emin (number_add x y).
Proof.
  destruct x as [[]|[]| |sx mx ex], y as [[]|[]| |sy my ey]; simpl; try done.
  intros _ _.
  match goal with |- above_emin (binary_normalize _ _ ?m _ _) =>
    destruct m end; simpl; try done; apply binary_round_above_emin.
Qed.

(** A sum is minus zero only when both terms are. *)
Lemma number_add_not_minus_zero (x y : number) :
  above_emin x -> above_emin y ->
  x <> S754_zero true ->
  number_add x y <> S754_zero true.
Proof.
  destruct x as [[]|[]| |sx mx ex], y as [[]|[]| |sy my ey]; simpl; try done.
  intros Hx Hy _.
  match goal with |- binary_normalize _ _ ?m _ _ <> _ =>
    destruct m end; simpl; try done; apply binary_round_not_zero; lia.
Qed.

Lemma number_add_zero_r (x : number) :
  x <> S754_zero true -> number_add x (S754_zero false) = x.
Proof. by destruct x as [[]|[]| |]. Qed.

End NumberFacts.

Module QuoteFacts.
Import QuoteCRUD.

Lemma reduce_total_from (items : list LineItem) (acc : number) :
  fold_left
    (fun sum item => number_add sum (number_mul (quantity item) (unitPrice item)))
    items acc
  = add_lines acc items.
Proof.
  revert acc. induction items as [|item rest IH]; intros acc; simpl.
  - reflexivity.
  - apply IH.
Qed.

Lemma reduce_total_is_sum (items : list LineItem) :
  reduce_total items = sum_of_lines items.
Proof. apply reduce_total_from. Qed.

(** The running sum of the lines is never [-0], and its exponent is in
    range. *)
Lemma add_lines_regular (items : list LineItem) (acc : number) :
  above_emin acc -> acc <> S754_zero true ->
  above_emin (add_lines acc items) /\ add_lines acc items <> S754_zero true.
Proof.
  revert acc. induction items as [|item rest IH]; intros acc Hacc Hnz; simpl.
  - done.
  - apply IH.
    + apply NumberFacts.number_add_above_emin; [done|].
      apply NumberFacts.number_mul_above_emin.
    + apply NumberFacts.number_add_not_minus_zero; [done| |done].
      apply NumberFacts.number_mul_above_emin.
Qed.

Lemma sum_of_lines_regular (items : list LineItem) :
  above_emin (sum_of_lines items) /\ sum_of_lines items <> S754_zero true.
Proof. by apply add_lines_regular. Qed.

Lemma add_lines_app (l1 l2 : list LineItem) (acc : number) :
  add_lines acc (l1 ++ l2) = add_lines (add_lines acc l1) l2.
Proof.
  revert acc. induction l1 as [|item rest IH]; intros acc; simpl; [done|].
  apply IH.
Qed.

Section WithFormat.
Context `{NumberFormat}.

Lemma quoteData_total (formData : gmap string FormValue) :
  quoteData formData !! "total"
  = Some (FNum (sum_of_lines (form_items formData))).
Proof.
  unfold quoteData. rewrite lookup_insert_eq.
  by rewrite reduce_total_is_sum.
Qed.

Lemma validateForm_ignores_total
    (formData : gmap string FormValue) (stale : FormValue) :
  validateForm (<["total" := stale]> formData) = validateForm formData.
Proof. unfold validateForm. by rewrite !lookup_insert_ne. Qed.

Lemma form_items_ignores_total
    (formData : gmap string FormValue) (stale : FormValue) :
  form_items (<["total" := stale]> formData) = form_items formData.
Proof. unfold form_items. by rewrite lookup_insert_ne. Qed.

(** C9: whenever [handleSubmit] submits a quote, the [total] of the
    submitted data is the sum over the current line items of quantity times
    unit price, in the arithmetic of JavaScript numbers and in the order of
    the lines; and whatever [total] the form state holds, the quote is
    submitted with that same sum. *)
Theorem submitted_total_is_sum_of_lines
    (formData : gmap string FormValue) (editingQuote : option Json)
    (s : Submission) :
  handleSubmit formData editingQuote = Some s ->
  submitted_data s !! "total"
  = Some (FNum (sum_of_lines (form_items formData))) /\
  (forall stale,
     exists s',
       handleSubmit (<["total" := stale]> formData) editingQuote = Some s' /\
       submitted_data s' !! "total"
       = Some (FNum (sum_of_lines (form_items formData)))).
Proof.
  unfold handleSubmit.
  destruct (validateForm formData) eqn:Hvalid; [|discriminate].
  intros [= <-]. split.
  - destruct editingQuote; simpl; apply quoteData_total.
  - intros stale. rewrite validateForm_ignores_total, Hvalid.
    eexists. split; [reflexivity|].
    destruct editingQuote; simpl;
      by rewrite quoteData_total, form_items_ignores_total.
Qed.

End WithFormat.

Lemma submitted_total_is_sum_of_lines_witness :
  @handleSubmit integer_format stale_form None
  = Some (CreateQuote (@quoteData integer_format stale_form)) /\
  stale_form !! "total" = Some (FNum (number_of_Z 999)) /\
  @quoteData integer_format stale_form !! "total"
  = Some (FNum (number_of_Z 25)).
Proof.
  assert (Hs : @handleSubmit integer_format stale_form None
               = Some (CreateQuote (@quoteData integer_format stale_form)))
    by reflexivity.
  split; [exact Hs|]. split; [reflexivity|].
  exact (proj1 (@submitted_total_is_sum_of_lines integer_format stale_form
                  None _ Hs)).
Defined.

(** Three units at 89.99: the product is rounded, and the total submitted
    is the number 269.96999999999997 (4749362466410987 / 2^44). *)
Lemma decimal_price_total :
  @handleSubmit integer_format decimal_form None
  = Some (CreateQuote (@quoteData integer_format decimal_form)) /\
  @quoteData integer_format decimal_form !! "total"
  = Some (FNum (S754_finite false 4749362466410987 (-44))).
Proof. split; reflexivity. Qed.

End QuoteFacts.

(** ** The retry loop of [makeRequest] *)

Module RetryFacts.
Import Enhanced.
Section WithPlatform.
Context `{Platform}.

Lemma status_in_message_is_auth (code : N) (tail : string) :
  code = 401%N \/ code = 403%N ->
  is_auth_message
    ("HTTP error! status: " +:+ pretty code +:+ ", message: " +:+ tail) = true.
Proof.
  intros [-> | ->]; unfold is_auth_message; apply orb_true_iff;
    [left | right]; reflexivity.
Qed.

Lemma sent_not_queued (w : World) (options : Options) :
  sent w options ->
  negb (isOnline (svc w)) && method_is_not_GET options = false.
Proof.
  unfold sent, method_is_not_GET. intros [-> | ->]; [done|].
  rewrite bool_decide_eq_true_2 by done. apply andb_false_r.
Qed.

(** An attempt that fails with 401 or 403 ends the loop on the spot,
    whichever attempt it is. *)
Lemma attempts_stop_on_auth_failure
    (remaining attempt : nat) (lastError : JsError) (url : string)
    (config : Config) (w : World) (r : Response) :
  fetch_result (fetches w) url config = Responded r ->
  ok r = false ->
  status r = 401%N \/ status r = 403%N ->
  body r <> Parsed JNull ->
  exists m,
    attempts (S remaining) attempt lastError url config w
    = (Thrown (Err m), snd (fetch url config w)).
Proof.
  intros Hfetch Hok Hstatus Hbody. simpl.
  unfold attempt_once, fetch. rewrite Hfetch. simpl. rewrite Hok. simpl.
  assert (Hread : exists m,
            read_prop match body r with
                      | Parsed d => d
                      | Unparsable _ => JObj []
                      end "message" = inr m).
  { destruct (body r) as [[]|]; simpl; eauto. congruence. }
  destruct Hread as [m ->]. simpl.
  rewrite status_in_message_is_auth by done. eauto.
Qed.

(** The retry loop touches nothing but the trace and the fetch counter. *)
Lemma attempts_frame
    (remaining attempt : nat) (lastError : JsError) (url : string)
    (config : Config) (w : World) :
  let w' := snd (attempts remaining attempt lastError url config w) in
  svc w' = svc w /\ promises w' = promises w /\
  next_promise w' = next_promise w /\ localStorage w' = localStorage w /\
  auth w' = auth w.
Proof.
  revert attempt lastError w.
  induction remaining as [|n IH]; intros attempt lastError w; simpl; [done|].
  unfold attempt_once, fetch.
  destruct (attempt_result _) as [e|data]; simpl; [|done].
  destruct (error_message e) as [te|m]; simpl; [done|].
  destruct (is_auth_message m); simpl; [done|].
  match goal with |- context [attempts n _ _ _ _ ?w2] =>
    specialize (IH (S attempt) e w2); simpl in IH;
    destruct IH as (-> & -> & -> & -> & ->) end.
  by destruct (attempt <? _).
Qed.

(** The retry loop never leaves its caller suspended. *)
Lemma attempts_not_suspended
    (remaining attempt : nat) (lastError : JsError) (url : string)
    (config : Config) (w : World) (h : nat) :
  fst (attempts remaining attempt lastError url config w) <> Suspended h.
Proof.
  revert attempt lastError w.
  induction remaining as [|n IH]; intros attempt lastError w; simpl; [done|].
  unfold attempt_once, fetch.
  destruct (attempt_result _) as [e|data]; simpl; [|done].
  destruct (error_message e) as [te|m]; simpl; [done|].
  destruct (is_auth_message m); simpl; [done|]. apply IH.
Qed.

(** When every attempt fails and none of the messages reads as an
    authentication error, the loop runs all of its attempts, with a delay
    of [retryDelay * attempt] after each attempt but the last, and throws
    the last error. *)
Lemma attempts_exhaust
    (remaining : nat) (url : string) (config : Config) :
  forall (attempt : nat) (lastError : JsError) (w : World),
    (forall i, i < remaining ->
       exists m,
         attempt_result (fetch_result (fetches w + i) url config) = inl (Err m)
         /\ is_auth_message m = false) ->
    exists e w',
      attempts remaining attempt lastError url config w = (Thrown e, w') /\
      trace w' = trace w ++
        retry_trace url config (retryAttempts (svc w)) (retryDelay (svc w))
                    remaining attempt /\
      fetches w' = fetches w + remaining /\
      match remaining with
      | 0 => e = lastError
      | S n =>
          attempt_result (fetch_result (fetches w + n) url config) = inl e
      end.
Proof.
  induction remaining as [|n IH]; intros attempt lastError w Hall; simpl.
  - exists lastError, w. by rewrite app_nil_r, Nat.add_0_r.
  - destruct (Hall 0 ltac:(lia)) as (m & Hm & Hclean).
    rewrite Nat.add_0_r in Hm.
    unfold attempt_once, fetch. rewrite Hm. simpl. rewrite Hclean.
    match goal with |- context [attempts n _ _ _ _ ?w2] => set (w2' := w2) end.
    assert (Hsvc : svc w2' = svc w) by (subst w2'; by destruct (attempt <? _)).
    assert (Hfetches : fetches w2' = S (fetches w))
      by (subst w2'; by destruct (attempt <? _)).
    assert (Htrace : trace w2' = trace w ++ EvFetch url config ::
              (if attempt <? retryAttempts (svc w)
               then [EvDelay (retryDelay (svc w) * attempt)] else []))
      by (subst w2'; destruct (attempt <? _); simpl;
          by rewrite <- ?app_assoc).
    destruct (IH (S attempt) (Err m) w2') as (e & w' & Hrun & Ht & Hf & He).
    { intros i Hi. rewrite Hfetches.
      replace (S (fetches w) + i) with (fetches w + S i) by lia.
      apply Hall. lia. }
    exists e, w'. rewrite Hrun. split; [done|].
    rewrite Ht, Htrace, Hsvc, Hf, Hfetches.
    split; [by rewrite <- app_assoc|]. split; [lia|].
    destruct n as [|n'].
    + rewrite Nat.add_0_r. by rewrite He.
    + rewrite Hfetches in He.
      by replace (fetches w + S n') with (S (fetches w) + n') by lia.
Qed.

(** C3, as amended: a call that is sent and whose attempt is answered
    with HTTP 401 or 403 (the error body not being the JSON value [null])
    is not retried: the error is thrown after that one fetch, and no delay
    is taken. *)
Theorem auth_failure_is_not_retried
    (w : World) (endpoint : string) (options : Options) (r : Response) :
  let url := baseURL (svc w) +:+ endpoint in
  let config := build_config (svc w) options in
  sent w options ->
  0 < retryAttempts (svc w) ->
  fetch_result (fetches w) url config = Responded r ->
  ok r = false ->
  status r = 401%N \/ status r = 403%N ->
  body r <> Parsed JNull ->
  exists m w',
    makeRequest endpoint options w = (Thrown (Err m), w') /\
    trace w' = trace w ++ [EvFetch url config] /\
    fetches w' = S (fetches w).
Proof.
  intros url config Hsent Hpos Hfetch Hok Hstatus Hbody.
  unfold makeRequest. rewrite sent_not_queued by done.
  destruct (retryAttempts (svc w)) as [|n]; [lia|].
  destruct (attempts_stop_on_auth_failure n 1 ThrownUndefined url config w r)
    as [m Hrun]; try done.
  exists m, (snd (fetch url config w)). subst url config.
  by rewrite Hrun.
Qed.

(** X24: when every attempt of a call that is sent fails and none of the error
    messages contains "401" or "403", the request is fetched exactly
    [retryAttempts] times, with a delay of [retryDelay * attempt] after each
    attempt but the last and none before the first, and the last error is
    thrown. *)
Lemma failures_exhaust_retries
    (w : World) (endpoint : string) (options : Options) :
  let url := baseURL (svc w) +:+ endpoint in
  let config := build_config (svc w) options in
  sent w options ->
  (forall i, i < retryAttempts (svc w) ->
     exists m,
       attempt_result (fetch_result (fetches w + i) url config) = inl (Err m)
       /\ is_auth_message m = false) ->
  exists e w',
    makeRequest endpoint options w = (Thrown e, w') /\
    trace w' = trace w ++
      retry_trace url config (retryAttempts (svc w)) (retryDelay (svc w))
                  (retryAttempts (svc w)) 1 /\
    fetches w' = fetches w + retryAttempts (svc w).
Proof.
  intros url config Hsent Hall.
  unfold makeRequest. rewrite sent_not_queued by done.
  destruct (attempts_exhaust (retryAttempts (svc w)) url config 1
              ThrownUndefined w Hall) as (e & w' & Hrun & Ht & Hf & _).
  exists e, w'. subst url config. by rewrite Hrun.
Qed.

(** With the constants of the constructor: three fetches, 1000 ms after the
    first and 2000 ms after the second. *)
Lemma default_retry_trace (url : string) (config : Config) :
  retry_trace url config 3 1000 3 1
  = [EvFetch url config; EvDelay 1000; EvFetch url config; EvDelay 2000;
     EvFetch url config].
Proof. reflexivity. Qed.

Lemma retry_trace_fetches
    (url : string) (config : Config) (limit base remaining attempt : nat) :
  length (fetch_events (retry_trace url config limit base remaining attempt))
  = remaining.
Proof.
  revert attempt. induction remaining as [|n IH]; intros attempt; [done|].
  simpl. destruct (attempt <? limit); simpl; by rewrite IH.
Qed.

End WithPlatform.

Lemma auth_failure_is_not_retried_witness :
  exists m w',
    @makeRequest unauthorized_backend "/api/quotes" no_options production_world
    = (Thrown (Err m), w') /\
    trace w' = trace production_world ++
      [EvFetch "https://erp.example.com/api/quotes"
         (@build_config unauthorized_backend (svc production_world)
            no_options)] /\
    fetches w' = 1.
Proof.
  apply (@auth_failure_is_not_retried unauthorized_backend
           production_world "/api/quotes" no_options
           (mkResponse false 401 "Unauthorized" (Parsed (JObj [])))).
  - left. reflexivity.
  - simpl. lia.
  - reflexivity.
  - reflexivity.
  - left. reflexivity.
  - discriminate.
Defined.

(** C3, counterexample: a call answered with HTTP 404 is fetched three
    times, with both delays taken, before its error is thrown. *)
Lemma not_found_is_retried :
  let run :=
    @makeRequest not_found_backend "/api/quotes/9" no_options
      production_world in
  fst run = Thrown (Err "HTTP error! status: 404, message: Not Found") /\
  length (fetch_events (trace (snd run))) = 3 /\
  delay_events (trace (snd run)) = [1000; 2000].
Proof. vm_compute. done. Qed.

(** C4, at the failing input: every attempt is answered with HTTP 500 and
    the message "upstream said 401"; the client has three attempts, yet the
    error is thrown after a single fetch and no retry is made. *)
Theorem server_error_quoting_401_is_not_retried :
  let run :=
    @makeRequest quoting_backend "/api/quotes" no_options production_world in
  transient quoting_answer /\
  retryAttempts (svc production_world) = 3 /\
  fst run
  = Thrown (Err "HTTP error! status: 500, message: upstream said 401") /\
  length (fetch_events (trace (snd run))) = 1 /\
  delay_events (trace (snd run)) = [].
Proof. vm_compute. repeat split; try done; discriminate. Qed.

End RetryFacts.

(** ** The offline queue *)

Module QueueFacts.
Import Enhanced RetryFacts.
Section WithPlatform.
Context `{Platform}.

Lemma is_pending_Some (p : option PromiseState) :
  is_pending p = true <-> p = Some PendingP.
Proof. destruct p as [[]|]; simpl; split; congruence. Qed.

(** Replaying an entry whose promise is pending: one fetch, and that
    promise settled by what the fetch brought. *)
Lemma replay_pending (r : QueuedRequest) (w : World) :
  is_pending (promises w !! q_handle r) = true ->
  replay r w
  = mkWorld (svc w)
      (<[q_handle r :=
           replay_settlement (fetch_result (fetches w) (q_url r) (q_config r))]>
         (promises w))
      (next_promise w) (localStorage w) (auth w) (S (fetches w))
      (trace w ++ [replay_event r]).
Proof.
  intros Hp%is_pending_Some. unfold replay, fetch, settle. simpl.
  by rewrite Hp.
Qed.

Lemma replay_settlement_not_pending (o : FetchOutcome) :
  replay_settlement o <> PendingP.
Proof. destruct o as [|r]; simpl; [done|]. by destruct (body r). Qed.

(** The loop of [processQueue], by induction on the queue. *)
Lemma processQueue_loop_spec (q : list QueuedRequest) :
  forall (fuel : nat) (w : World),
    requestQueue (svc w) = q ->
    length q <= fuel ->
    queue_wf w ->
    let w' := processQueue_loop fuel w in
    requestQueue (svc w') = [] /\
    trace w' = trace w ++ (replay_event <$> q) /\
    fetches w' = fetches w + length q /\
    (forall i r, q !! i = Some r ->
       promises w' !! q_handle r
       = Some (replay_settlement
                 (fetch_result (fetches w + i) (q_url r) (q_config r)))) /\
    (forall h, h ∉ (q_handle <$> q) -> promises w' !! h = promises w !! h).
Proof.
  induction q as [|r rest IH]; intros fuel w Hq Hfuel [Hnodup Hall]; simpl.
  - assert (processQueue_loop fuel w = w) as ->
      by (destruct fuel; simpl; by rewrite ?Hq).
    rewrite Hq, app_nil_r, Nat.add_0_r. repeat split; try done.
  - destruct fuel as [|fuel]; [simpl in Hfuel; lia|]. simpl. rewrite Hq.
    rewrite Hq in Hnodup, Hall. simpl in Hnodup.
    apply NoDup_cons in Hnodup as [Hfresh Hnodup].
    apply Forall_cons in Hall as [[Hpending Hbound] Hall].
    set (w0 := set_svc (set_requestQueue rest) w).
    assert (Hrep := replay_pending r w0 Hpending).
    set (w1 := replay r w0) in *.
    assert (Hq1 : requestQueue (svc w1) = rest) by (by rewrite Hrep).
    assert (Hwf1 : queue_wf w1).
    { split; rewrite Hq1; [done|].
      apply Forall_forall. intros r' Hr'.
      rewrite Forall_forall in Hall. destruct (Hall r' Hr') as [Hp' Hb'].
      rewrite Hrep. simpl. split; [|done].
      rewrite lookup_insert_ne; [done|].
      intros Heq. apply Hfresh. rewrite Heq. by apply list_elem_of_fmap_2. }
    destruct (IH fuel w1 Hq1 ltac:(simpl in Hfuel; lia) Hwf1)
      as (Hempty & Htrace & Hfetches & Hsettled & Hother).
    assert (Ht1 : trace w1 = trace w ++ [replay_event r]) by (by rewrite Hrep).
    assert (Hf1 : fetches w1 = S (fetches w)) by (by rewrite Hrep).
    assert (Hp1 : promises w1
                  = <[q_handle r :=
                        replay_settlement
                          (fetch_result (fetches w) (q_url r) (q_config r))]>
                      (promises w)) by (by rewrite Hrep).
    repeat split.
    + done.
    + rewrite Htrace, Ht1. by rewrite <- app_assoc.
    + rewrite Hfetches, Hf1. simpl. lia.
    + intros [|i] r' Hi; simpl in Hi.
      * injection Hi as <-. rewrite Hother by done.
        rewrite Hp1, lookup_insert_eq. by rewrite Nat.add_0_r.
      * rewrite (Hsettled i r' Hi), Hf1.
        by replace (S (fetches w) + i) with (fetches w + S i) by lia.
    + intros h Hh. apply not_elem_of_cons in Hh as [Hne Hh].
      rewrite Hother by done. rewrite Hp1. by rewrite lookup_insert_ne.
Qed.

(** C6: draining the queue replays every queued request, in the order of
    the queue; every entry's promise is settled by the outcome of its own
    replay, whatever happened to the entries before it, and no other
    promise is touched. *)
Theorem processQueue_replays_in_order (w : World) :
  queue_wf w ->
  let q := requestQueue (svc w) in
  let w' := processQueue w in
  requestQueue (svc w') = [] /\
  trace w' = trace w ++ (replay_event <$> q) /\
  (forall i r, q !! i = Some r ->
     promises w' !! q_handle r
     = Some (replay_settlement
               (fetch_result (fetches w + i) (q_url r) (q_config r))) /\
     is_pending (promises w' !! q_handle r) = false) /\
  (forall h, h ∉ (q_handle <$> q) -> promises w' !! h = promises w !! h).
Proof.
  intros Hwf q w'.
  destruct (processQueue_loop_spec q (length q) w eq_refl (le_n _) Hwf)
    as (Hempty & Htrace & _ & Hsettled & Hother).
  repeat split; try done.
  - by apply Hsettled.
  - subst w'. unfold processQueue. fold q. rewrite (Hsettled i r) by done.
    simpl. pose proof (replay_settlement_not_pending
      (fetch_result (fetches w + i) (q_url r) (q_config r))).
    by destruct (replay_settlement _).
Qed.

(** C10: a queued request is replayed with a single fetch; its promise is
    resolved with the parsed body whenever the fetch settles and the body
    parses, whatever the status of the response, and it is rejected exactly
    when the fetch or the parsing of the body throws. *)
Theorem replay_resolves_whenever_body_parses
    (w : World) (i : nat) (r : QueuedRequest) :
  queue_wf w ->
  requestQueue (svc w) !! i = Some r ->
  let o := fetch_result (fetches w + i) (q_url r) (q_config r) in
  let w' := processQueue w in
  (forall resp data,
     o = Responded resp -> body resp = Parsed data ->
     promises w' !! q_handle r = Some (Resolved data)) /\
  (forall e,
     promises w' !! q_handle r = Some (Rejected e) <->
     (exists m, o = NetworkError m /\ e = Err m) \/
     (exists resp m, o = Responded resp /\ body resp = Unparsable m /\
                     e = Err m)) /\
  fetches w' = fetches w + length (requestQueue (svc w)).
Proof.
  intros Hwf Hi o w'.
  destruct (processQueue_loop_spec (requestQueue (svc w))
              (length (requestQueue (svc w))) w eq_refl (le_n _) Hwf)
    as (_ & _ & Hfetches & Hsettled & _).
  specialize (Hsettled i r Hi). fold o in Hsettled.
  subst w'. unfold processQueue. rewrite Hsettled. repeat split.
  - intros resp data -> Hbody. simpl. by rewrite Hbody.
  - intros [= Hrej]. destruct o as [m|resp]; simpl in Hrej.
    + left. injection Hrej as <-. eauto.
    + right. destruct (body resp) as [d|m] eqn:Hb; [done|].
      injection Hrej as <-. eauto.
  - intros [(m & Ho & ->) | (resp & m & Ho & Hb & ->)].
    + by rewrite Ho.
    + rewrite Ho. simpl. by rewrite Hb.
  - done.
Qed.

(** X26: sending or queueing a request settles no promise: a promise that
    is pending stays so until the queue is drained. *)
Lemma makeRequest_keeps_promises
    (w : World) (endpoint : string) (options : Options) (h : nat) :
  h < next_promise w ->
  promises (snd (makeRequest endpoint options w)) !! h = promises w !! h.
Proof.
  intros Hh. unfold makeRequest.
  destruct (negb (isOnline (svc w)) && method_is_not_GET options).
  - simpl. rewrite lookup_insert_ne; [done | lia].
  - match goal with |- context [attempts ?n ?k ?e ?u ?c w] =>
      destruct (attempts_frame n k e u c w) as (_ & -> & _) end.
    done.
Qed.

(** The constructor leaves a well-formed (empty) queue, and sending or
    queueing a request keeps the queue well formed. *)
Lemma queue_wf_initial (url key : string) (online : bool)
    (stored : gmap string string) :
  queue_wf (initial_world url key online stored).
Proof. split; simpl; constructor. Qed.

Lemma queue_wf_makeRequest
    (w : World) (endpoint : string) (options : Options) :
  queue_wf w -> queue_wf (snd (makeRequest endpoint options w)).
Proof.
  intros [Hnodup Hall]. unfold makeRequest.
  destruct (negb (isOnline (svc w)) && method_is_not_GET options).
  - rewrite Forall_forall in Hall. split; simpl.
    + rewrite fmap_app. apply NoDup_app. split; [done|]. split.
      * intros h Hin Hnew. apply list_elem_of_singleton in Hnew as ->.
        apply list_elem_of_fmap in Hin as (r & Hr & Hin).
        destruct (Hall r Hin) as [_ Hlt]. simpl in Hr. lia.
      * apply NoDup_singleton.
    + apply Forall_app. split.
      * apply Forall_forall. intros r Hin.
        destruct (Hall r Hin) as [Hp Hlt].
        rewrite lookup_insert_ne by lia. split; [done | lia].
      * apply Forall_singleton. simpl. rewrite lookup_insert_eq.
        split; [done | lia].
  - match goal with |- context [attempts ?n ?k ?e ?u ?c w] =>
      destruct (attempts_frame n k e u c w) as (Hs & Hp & Hn & _) end.
    unfold queue_wf. by rewrite Hs, Hp, Hn.
Qed.

(** The [online] listener marks the client online and drains the queue. *)
Lemma on_online_drains (w : World) :
  queue_wf w ->
  isOnline (svc (on_online w)) = true /\
  requestQueue (svc (on_online w)) = [] /\
  trace (on_online w) = trace w ++ (replay_event <$> requestQueue (svc w)).
Proof.
  intros Hwf. unfold on_online.
  set (w0 := set_svc (set_isOnline true) w).
  assert (Hwf0 : queue_wf w0) by done.
  destruct (processQueue_loop_spec (requestQueue (svc w0))
              (length (requestQueue (svc w0))) w0 eq_refl (le_n _) Hwf0)
    as (Hempty & Htrace & _).
  split; [|split; [exact Hempty | exact Htrace]].
  clear Hempty Htrace. unfold processQueue.
  assert (Hon : isOnline (svc w0) = true) by done.
  revert Hon. generalize (length (requestQueue (svc w0))). generalize w0.
  clear. intros w0 fuel. revert w0.
  induction fuel as [|fuel IH]; intros w0 Hon; simpl; [done|].
  destruct (requestQueue (svc w0)) as [|r rest] eqn:Hq; [done|].
  apply IH. unfold replay, fetch, settle. simpl.
  by destruct (promises w0 !! q_handle r) as [[]|].
Qed.

(** X25: while the client is offline, [makeRequest] queues the request
    exactly when [options.method] is not the string 'GET'. *)
Lemma offline_request_queued_iff
    (w : World) (endpoint : string) (options : Options) :
  isOnline (svc w) = false ->
  (exists h, fst (makeRequest endpoint options w) = Suspended h) <->
  opt_method options <> Some "GET".
Proof.
  intros Hoff. unfold makeRequest, method_is_not_GET. rewrite Hoff. simpl.
  case_bool_decide as Hm; simpl; split.
  - intros [h Hs]. by apply attempts_not_suspended in Hs.
  - done.
  - done.
  - eauto.
Qed.

(** C1, where the code departs from it: a list call made while offline
    reaches [makeRequest] without a [method], so the read is not sent but
    pushed on the queue, and its caller is left with the pending promise;
    nothing is fetched. *)
Theorem offline_read_is_queued
    (path key : string) (mock : Json) (query : string) (w : World) :
  isOnline (svc w) = false ->
  let endpoint :=
    path +:+ (if String.eqb query "" then "" else "?" +:+ query) in
  exists w',
    list_call path key mock query w = (Suspended (next_promise w), w') /\
    trace w' = trace w /\
    fetches w' = fetches w /\
    requestQueue (svc w')
    = requestQueue (svc w) ++
      [mkQueued (baseURL (svc w) +:+ endpoint)
                (mkConfig None (default_headers (svc w)) None)
                (next_promise w)].
Proof.
  intros Hoff endpoint. unfold list_call, try_catch, bind, makeRequest.
  rewrite Hoff. simpl. eauto.
Qed.

End WithPlatform.

Lemma queued_world_wf : queue_wf queued_world.
Proof.
  split.
  - apply (bool_decide_unpack _). by vm_compute.
  - repeat constructor.
Qed.

Lemma offline_read_is_queued_witness :
  isOnline (svc offline_world) = false /\
  exists w',
    @getProducts unreachable "" offline_world = (Suspended 0, w') /\
    trace w' = [] /\
    fetches w' = 0 /\
    requestQueue (svc w')
    = [mkQueued "https://erp.example.com/api/inventory/products"
         (mkConfig None [("Content-Type", "application/json")] None) 0].
Proof.
  split; [reflexivity|].
  exact (@offline_read_is_queued unreachable "/api/inventory/products"
           "products" (@getMockProducts unreachable) "" offline_world
           eq_refl).
Defined.

Lemma processQueue_replays_in_order_witness :
  queue_wf queued_world /\
  let w' := @processQueue flaky_backend queued_world in
  requestQueue (svc w') = [] /\
  fetch_events (trace w')
  = [("https://erp.example.com/api/quotes",
      mkConfig (Some "POST") [("Content-Type", "application/json")]
               (Some "first quote"));
     ("https://erp.example.com/api/quotes",
      mkConfig (Some "POST") [("Content-Type", "application/json")]
               (Some "second quote"))] /\
  promises w' !! 0 = Some (Rejected (Err "Failed to fetch")) /\
  promises w' !! 1 = Some (Resolved validation_error).
Proof.
  split; [exact queued_world_wf|].
  destruct (@processQueue_replays_in_order flaky_backend queued_world
              queued_world_wf) as (Hempty & Htrace & Hsettled & _).
  split; [exact Hempty|]. split; [by rewrite Htrace|].
  split.
  - exact (proj1 (Hsettled 0 _ eq_refl)).
  - exact (proj1 (Hsettled 1 _ eq_refl)).
Defined.

Lemma replay_resolves_whenever_body_parses_witness :
  let w' := @processQueue flaky_backend queued_world in
  promises w' !! 1 = Some (Resolved validation_error) /\
  fetches w' = 2.
Proof.
  destruct (@replay_resolves_whenever_body_parses flaky_backend queued_world
              1 _ queued_world_wf eq_refl) as (Hres & _ & Hfetches).
  split; [|exact Hfetches].
  exact (Hres (mkResponse false 422 "Unprocessable Entity"
                 (Parsed validation_error)) validation_error
           eq_refl eq_refl).
Defined.

End QueueFacts.

(** ** List calls and the mock data *)

Module ListFacts.
Import Enhanced RetryFacts.
Section WithPlatform.
Context `{Platform}.

(** The loop throws when every attempt fails, whatever the messages. *)
Lemma attempts_all_fail
    (remaining : nat) (url : string) (config : Config) :
  (forall n, exists e, attempt_result (fetch_result n url config) = inl e) ->
  forall (attempt : nat) (lastError : JsError) (w : World),
    exists e w',
      attempts remaining attempt lastError url config w = (Thrown e, w').
Proof.
  intros Hall. induction remaining as [|n IH]; intros attempt lastError w.
  - simpl. eauto.
  - simpl. unfold attempt_once, fetch.
    destruct (Hall (fetches w)) as [e ->]. simpl.
    destruct (error_message e) as [te|m]; [eauto|].
    destruct (is_auth_message m); [eauto|]. apply IH.
Qed.

Lemma list_call_on_throw
    (path key : string) (mock : Json) (query : string) (w w1 : World)
    (e : JsError) :
  makeRequest
    (path +:+ (if String.eqb query "" then "" else "?" +:+ query))
    no_options w = (Thrown e, w1) ->
  list_call path key mock query w = (Returned mock, w1).
Proof. intros Hreq. unfold list_call, try_catch, bind. by rewrite Hreq. Qed.

Lemma list_call_never_throws
    (path key : string) (mock : Json) (query : string) (w : World) :
  forall e, fst (list_call path key mock query w) <> Thrown e.
Proof.
  intros e. unfold list_call, try_catch, bind.
  destruct (makeRequest _ no_options w) as [[response|e'|h] w1]; simpl;
    [|done..].
  by destruct response.
Qed.

(** C2, where the code departs from it: a list call of the enhanced
    client whose backend cannot be reached answers with the mock data set
    once the retries are exhausted ([retryAttempts] fetches, with the
    delays in between), whatever base URL and token are configured. *)
Theorem unreachable_backend_yields_mock
    (path key : string) (mock : Json) (query : string) (w : World) :
  let url :=
    baseURL (svc w) +:+ path
    +:+ (if String.eqb query "" then "" else "?" +:+ query) in
  let config := build_config (svc w) no_options in
  isOnline (svc w) = true ->
  (forall n url config,
     exists m,
       fetch_result n url config = NetworkError m /\
       is_auth_message m = false) ->
  exists w1,
    list_call path key mock query w = (Returned mock, w1) /\
    fetches w1 = fetches w + retryAttempts (svc w) /\
    trace w1 = trace w ++
      retry_trace url config (retryAttempts (svc w)) (retryDelay (svc w))
                  (retryAttempts (svc w)) 1.
Proof.
  intros url config Hon Hdown.
  set (endpoint := path +:+ (if String.eqb query "" then "" else "?" +:+ query)).
  destruct (attempts_exhaust (retryAttempts (svc w))
              (baseURL (svc w) +:+ endpoint) config 1 ThrownUndefined w)
    as (e & w1 & Hrun & Htrace & Hfetches & _).
  { intros i _.
    destruct (Hdown (fetches w + i) (baseURL (svc w) +:+ endpoint) config)
      as (m & -> & Hclean).
    exists m. by split. }
  exists w1. split; [|split; [exact Hfetches | exact Htrace]].
  apply (list_call_on_throw path key mock query w w1 e).
  unfold makeRequest. by rewrite Hon.
Qed.

(** C8, where the code departs from it: no exception escapes a list call
    and the caller receives the mock data set when the request throws, but
    a response that carries no truthy [success] flag, a failure envelope
    included, is not replaced by the mock data set: it is returned wrapped
    under the key of the resource, with [success] set. *)
Theorem list_call_outcomes
    (path key : string) (mock : Json) (query : string) (w : World) :
  let request :=
    makeRequest
      (path +:+ (if String.eqb query "" then "" else "?" +:+ query))
      no_options w in
  (forall e, fst (list_call path key mock query w) <> Thrown e) /\
  (forall e w1,
     request = (Thrown e, w1) ->
     list_call path key mock query w = (Returned mock, w1)) /\
  (forall response w1,
     request = (Returned response, w1) ->
     response <> JNull ->
     truthy_opt (prop response "success") = false ->
     list_call path key mock query w
     = (Returned (JObj [("success", JBool true); (key, response)]), w1)).
Proof.
  intros request. split; [apply list_call_never_throws|].
  split; [intros e w1; apply list_call_on_throw|].
  intros response w1 Hreq Hnull Hflag.
  unfold list_call, try_catch, bind. subst request. rewrite Hreq.
  destruct response; simpl in *; try done; by rewrite Hflag.
Qed.

End WithPlatform.

(** [ApiService.getProducts] (api.js) does gate its fallback: against the
    same unreachable backend it rethrows. *)
Lemma basic_getProducts_rethrows :
  fst (@Basic.getProducts unreachable production_world)
  = Thrown (Err "Failed to fetch").
Proof. vm_compute. done. Qed.

Lemma basic_getProducts_dev_fallback :
  fst (@Basic.getProducts unreachable dev_world)
  = Returned Basic.getMockProducts.
Proof. vm_compute. done. Qed.

(** C2 at its failing input: the backend of a deployment configured with a
    real URL and a token cannot be reached, and [getProducts] answers with
    the mock products, [success] flag set. *)
Lemma mock_served_against_real_backend :
  includes (baseURL (svc production_world)) "localhost" = false /\
  truthy (apiKey (svc production_world)) = true /\
  fst (@getProducts unreachable "" production_world)
  = Returned (@getMockProducts unreachable) /\
  prop (@getMockProducts unreachable) "success" = Some (JBool true).
Proof. vm_compute. done. Qed.

Lemma unreachable_backend_yields_mock_witness :
  includes (baseURL (svc production_world)) "localhost" = false /\
  truthy (apiKey (svc production_world)) = true /\
  exists w1,
    @getProducts unreachable "" production_world
    = (Returned (@getMockProducts unreachable), w1) /\
    fetches w1 = 3 /\
    delay_events (trace w1) = [1000; 2000].
Proof.
  split; [reflexivity|]. split; [reflexivity|].
  destruct (@unreachable_backend_yields_mock unreachable
              "/api/inventory/products" "products"
              (@getMockProducts unreachable) "" production_world)
    as (w1 & Hrun & Hfetches & Htrace).
  - reflexivity.
  - intros n url config. exists "Failed to fetch". split; reflexivity.
  - exists w1. split; [exact Hrun|]. split; [exact Hfetches|].
    rewrite Htrace. reflexivity.
Defined.

(** C8 at its failing input: the development backend (default URL, no
    token) answers the list request with a failure envelope; the caller
    receives that envelope wrapped as the product list, not the mock
    products. *)
Lemma failure_envelope_is_not_replaced :
  baseURL (svc dev_world) = "http://localhost:3000" /\
  truthy (apiKey (svc dev_world)) = false /\
  truthy_opt (prop failure_envelope "success") = false /\
  fst (@getProducts failing_envelope_backend "" dev_world)
  = Returned (JObj [("success", JBool true); ("products", failure_envelope)]) /\
  fst (@getProducts failing_envelope_backend "" dev_world)
  <> Returned (@getMockProducts failing_envelope_backend).
Proof. vm_compute. repeat split; try done. Qed.

Lemma list_call_outcomes_witness :
  fst (@getProducts failing_envelope_backend "" dev_world)
  = Returned (JObj [("success", JBool true); ("products", failure_envelope)]) /\
  fst (@getProducts unreachable "" dev_world)
  = Returned (@getMockProducts unreachable).
Proof.
  split.
  - destruct (@list_call_outcomes failing_envelope_backend
                "/api/inventory/products" "products"
                (@getMockProducts failing_envelope_backend) "" dev_world)
      as (_ & _ & Hwrap).
    unfold getProducts.
    by rewrite (Hwrap failure_envelope _ eq_refl ltac:(discriminate) eq_refl).
  - destruct (@list_call_outcomes unreachable
                "/api/inventory/products" "products"
                (@getMockProducts unreachable) "" dev_world)
      as (_ & Hmock & _).
    unfold getProducts.
    by rewrite (Hmock (Err "Failed to fetch") _ eq_refl).
Defined.

End ListFacts.

(** ** The session *)

Module AuthFacts.
Import RetryFacts.
Section WithPlatform.
Context `{Platform}.

(** *** What the transitions do to the stored pair *)

Lemma clear_session_ok (w : World) : stored_session_ok (clear_session w).
Proof.
  unfold stored_session_ok, clear_session. simpl.
  rewrite lookup_delete_eq. by intros [? ?].
Qed.

Lemma makeRequest_keeps_storage (endpoint : string) (options : Options) :
  keeps_storage (Enhanced.makeRequest endpoint options).
Proof.
  intros w. unfold Enhanced.makeRequest.
  destruct (negb (isOnline (svc w)) && Enhanced.method_is_not_GET options);
    [done|].
  match goal with |- context [Enhanced.attempts ?n ?k ?e ?u ?c w] =>
    by destruct (attempts_frame n k e u c w) as (_ & _ & _ & -> & _) end.
Qed.

Lemma enhanced_testConnection_keeps_storage :
  keeps_storage (client_testConnection Enhanced.client).
Proof.
  intros w. simpl. unfold Enhanced.testConnection, try_catch, bind.
  destruct (_ || _); [done|].
  pose proof (makeRequest_keeps_storage "/api/health" no_options w) as Hst.
  destruct (Enhanced.makeRequest "/api/health" no_options w)
    as [[response|e|h] w1]; simpl in *; [done| |done].
  by destruct e.
Qed.

Lemma enhanced_authenticate_keeps_storage (creds : Json) :
  keeps_storage (client_authenticate Enhanced.client creds).
Proof.
  intros w. simpl. unfold Enhanced.authenticate, try_catch, bind.
  match goal with |- context [Enhanced.makeRequest ?e ?o w] =>
    pose proof (makeRequest_keeps_storage e o w) as Hst;
    destruct (Enhanced.makeRequest e o w) as [[response|err|h] w1] end;
    simpl in *; [| by destruct err | done].
  destruct response as [| | | |? |fields]; simpl; try done.
  destruct (assoc "token" fields) as [t|]; simpl; [|done].
  by destruct (truthy t).
Qed.

(** The startup check either leaves storage as it was or removes both
    keys. *)
Lemma checkAuthStatus_storage (apiService : ApiClient) (w : World) :
  keeps_storage (client_testConnection apiService) ->
  let w' := snd (checkAuthStatus apiService w) in
  localStorage w' = localStorage w \/
  localStorage w' = localStorage (clear_session w).
Proof.
  intros Hkeep. unfold checkAuthStatus, finally, try_catch, bind, modify.
  simpl. destruct (stored_pair _) as [[storedToken storedUser]|]; simpl;
    [|by left].
  match goal with |- context [client_testConnection apiService ?w0] =>
    pose proof (Hkeep w0) as Hst;
    destruct (client_testConnection apiService w0) as [[ct|e|h] w1] end;
    simpl in *; try (left; by rewrite ?Hst).
  destruct (read_prop ct "success") as [e|flag]; simpl;
    [left; by rewrite ?Hst|].
  destruct (truthy_opt flag); simpl.
  - destruct (JSON_parse storedUser); simpl; left; by rewrite ?Hst.
  - right. by rewrite Hst.
Qed.

(** X27: the startup check keeps the stored session well formed: when the
    client's connection test does not write storage and, before the check,
    a stored user comes with a stored non-empty token, the same holds after
    the check (which leaves storage alone or removes both keys). *)
Lemma checkAuthStatus_session_ok (apiService : ApiClient) (w : World) :
  keeps_storage (client_testConnection apiService) ->
  stored_session_ok w ->
  stored_session_ok (snd (checkAuthStatus apiService w)).
Proof.
  intros Hkeep Hok.
  destruct (checkAuthStatus_storage apiService w Hkeep) as [Heq | Heq];
    unfold stored_session_ok; rewrite Heq; [done|].
  apply clear_session_ok.
Qed.

(** [login] either leaves storage as it was or writes both keys, the
    token first. *)
Lemma login_storage (apiService : ApiClient) (creds : Json) (w : World) :
  keeps_storage (client_authenticate apiService creds) ->
  let w' := snd (login apiService creds w) in
  localStorage w' = localStorage w \/
  exists t u,
    truthy t = true /\
    localStorage w'
    = <["visual_erp_user" := JSON_stringify u]>
        (<["visual_erp_token" := template t]> (localStorage w)).
Proof.
  intros Hkeep. unfold login, finally, try_catch, bind, modify. simpl.
  match goal with |- context [client_authenticate apiService creds ?w0] =>
    pose proof (Hkeep w0) as Hst;
    destruct (client_authenticate apiService creds w0)
      as [[response|e|h] w1] end;
    simpl in *; [| destruct e; simpl; by left | by left].
  destruct response as [| | | |? |fields]; simpl; try by left.
  destruct (assoc "token" fields) as [t|]; simpl; [|by left].
  destruct (assoc "user" fields) as [u|]; simpl; [|by left].
  destruct (truthy t) eqn:Ht; simpl; [|by left].
  destruct (truthy u); simpl; [|by left].
  right. exists t, u. by rewrite Hst.
Qed.

(** When the refresh request throws, [refreshToken] removes both storage
    keys and resets the installed token before rethrowing. *)
Lemma refreshToken_failure_clears_both (w w1 : World) (e : JsError) :
  Enhanced.makeRequest "/api/auth/refresh" (mkOptions (Some "POST") None None) w
  = (Thrown e, w1) ->
  exists w2,
    Enhanced.refreshToken w = (Thrown e, w2) /\
    localStorage w2 !! "visual_erp_token" = None /\
    localStorage w2 !! "visual_erp_user" = None /\
    apiKey (svc w2) = JStr "".
Proof.
  intros Hreq. unfold Enhanced.refreshToken, try_catch, bind, modify.
  rewrite Hreq. simpl. eexists. split; [reflexivity|]. simpl.
  repeat split.
  - rewrite lookup_delete_ne by done. apply lookup_delete_eq.
  - apply lookup_delete_eq.
Qed.

(** C7: when [authenticate] resolves to a response that carries a truthy
    token and a truthy user record, [login] succeeds; afterwards storage
    holds that token and the serialized user, the client's [apiKey] is that
    token, and the provider is authenticated with that user. *)
Theorem login_persists_session
    (apiService : ApiClient) (creds response t u : Json) (w w1 : World) :
  client_authenticate apiService creds (setError None (setIsLoading true w))
  = (Returned response, w1) ->
  prop response "token" = Some t ->
  prop response "user" = Some u ->
  truthy t = true ->
  truthy u = true ->
  exists w2,
    login apiService creds w = (Returned (JObj [("success", JBool true)]), w2) /\
    localStorage w2 !! "visual_erp_token" = Some (template t) /\
    localStorage w2 !! "visual_erp_user" = Some (JSON_stringify u) /\
    apiKey (svc w2) = t /\
    isAuthenticated (auth w2) = true /\
    user (auth w2) = u /\
    isLoading (auth w2) = false.
Proof.
  intros Hauth Htoken Huser Ht Hu.
  unfold login, finally, try_catch, bind, modify. simpl. rewrite Hauth.
  assert (read_prop response "token" = inr (Some t)) as ->
    by (destruct response; simpl in *; congruence).
  simpl. rewrite Huser, Ht, Hu. simpl.
  eexists. split; [reflexivity|]. simpl.
  repeat split; try done.
  - rewrite lookup_insert_ne by done. apply lookup_insert_eq.
  - apply lookup_insert_eq.
Qed.

End WithPlatform.

Lemma login_persists_session_witness :
  exists w2,
    @login login_backend (@Enhanced.client login_backend) credentials
      anonymous_world
    = (Returned (JObj [("success", JBool true)]), w2) /\
    localStorage w2 !! "visual_erp_token" = Some "abc" /\
    localStorage w2 !! "visual_erp_user"
    = Some (@JSON_stringify login_backend (JObj [("username", JStr "t")])) /\
    apiKey (svc w2) = JStr "abc" /\
    isAuthenticated (auth w2) = true /\
    user (auth w2) = JObj [("username", JStr "t")] /\
    isLoading (auth w2) = false.
Proof.
  apply (@login_persists_session login_backend
           (@Enhanced.client login_backend) credentials login_response
           (JStr "abc") (JObj [("username", JStr "t")]) anonymous_world
           (snd (@Enhanced.authenticate login_backend credentials
                   (setError None (setIsLoading true anonymous_world)))));
    reflexivity.
Defined.

(** With the [ApiService] that the provider imports, whose [authenticate]
    does not touch [apiKey], a login answered with a token but no user
    record leaves the installed token as it was. *)
Lemma login_without_user_basic_client :
  let run :=
    @login token_only_backend (@Basic.client token_only_backend)
      credentials anonymous_world in
  fst run
  = Returned (JObj [("success", JBool false);
                    ("error",
                     JStr "Invalid response from authentication server")]) /\
  isAuthenticated (auth (snd run)) = false /\
  localStorage (snd run) !! "visual_erp_token" = None /\
  apiKey (svc (snd run)) = JStr "".
Proof. vm_compute. done. Qed.

(** [logout] clears both storage keys, the installed token and the
    provider's session, whatever the state before. *)
Lemma logout_clears_everything (w : World) :
  localStorage (logout w) !! "visual_erp_token" = None /\
  localStorage (logout w) !! "visual_erp_user" = None /\
  apiKey (svc (logout w)) = JStr "" /\
  isAuthenticated (auth (logout w)) = false /\
  user (auth (logout w)) = JNull.
Proof.
  unfold logout, clear_session. simpl. repeat split.
  - rewrite lookup_delete_ne by done. apply lookup_delete_eq.
  - apply lookup_delete_eq.
Qed.

End AuthFacts.

(** ** More on the enhanced client: retries, the queue, the token *)

Module ServiceFacts.
Import Enhanced RetryFacts QueueFacts.
Section WithPlatform.
Context `{Platform}.

(** What lands in [catch] is always an [Error] object. *)
Lemma attempt_result_Err (o : FetchOutcome) (e : JsError) :
  attempt_result o = inl e -> exists m, e = Err m.
Proof.
  destruct o as [m|r]; simpl; [intros [= <-]; eauto|].
  destruct (ok r); simpl.
  - destruct (body r); intros [= <-]; eauto.
  - destruct (read_prop _ "message") as [e'|m] eqn:Hread.
    + intros [= <-]. destruct (body r) as [[]|]; simpl in Hread;
        try discriminate. injection Hread as <-. unfold TypeError_null. eauto.
    + intros [= <-]. eauto.
Qed.

(** The loop after [j] retried failures and a success. *)
Lemma attempts_succeed_after (j : nat) (url : string) (config : Config)
    (data : Json) :
  forall (rest attempt : nat) (lastError : JsError) (w : World),
    attempt + j <= retryAttempts (svc w) ->
    (forall i, i < j ->
       exists m,
         attempt_result (fetch_result (fetches w + i) url config) = inl (Err m)
         /\ is_auth_message m = false) ->
    attempt_result (fetch_result (fetches w + j) url config) = inr data ->
    exists w',
      attempts (j + S rest) attempt lastError url config w = (Returned data, w') /\
      trace w' = trace w ++
        retry_trace url config (retryAttempts (svc w)) (retryDelay (svc w))
                    j attempt ++ [EvFetch url config] /\
      fetches w' = fetches w + S j.
Proof.
  induction j as [|j IH]; intros rest attempt lastError w Hle Hfail Hok.
  - simpl. unfold attempt_once, fetch. rewrite Nat.add_0_r in Hok.
    rewrite Hok. simpl. eexists. split; [reflexivity|]. simpl.
    split; [done | lia].
  - destruct (Hfail 0 ltac:(lia)) as (m & Hm & Hclean).
    rewrite Nat.add_0_r in Hm. simpl.
    unfold attempt_once, fetch. rewrite Hm. simpl. rewrite Hclean.
    assert ((attempt <? retryAttempts (svc w)) = true) as ->
      by (apply Nat.ltb_lt; lia).
    match goal with |- context [attempts _ _ _ _ _ ?w2] => set (w2' := w2) end.
    assert (Hfetches : fetches w2' = S (fetches w)) by done.
    destruct (IH rest (S attempt) (Err m) w2') as (w' & Hrun & Ht & Hf).
    + subst w2'. simpl. lia.
    + intros i Hi. rewrite Hfetches.
      replace (S (fetches w) + i) with (fetches w + S i) by lia.
      apply Hfail. lia.
    + rewrite Hfetches.
      by replace (S (fetches w) + j) with (fetches w + S j) by lia.
    + exists w'. rewrite Hrun. split; [done|]. rewrite Ht, Hf.
      subst w2'. simpl. split; [|lia].
      by rewrite <- !app_assoc.
Qed.

(** X1: a request that is sent and fails [j] times before it succeeds, with
    attempts to spare and no failure message that reads as an
    authentication error, returns the parsed body of the first success
    after [j + 1] fetches, a delay of [retryDelay * attempt] following each
    failed attempt. *)
Theorem request_succeeds_after_failures
    (w : World) (endpoint : string) (options : Options) (j : nat)
    (data : Json) :
  let url := baseURL (svc w) +:+ endpoint in
  let config := build_config (svc w) options in
  sent w options ->
  j < retryAttempts (svc w) ->
  (forall i, i < j ->
     exists m,
       attempt_result (fetch_result (fetches w + i) url config) = inl (Err m)
       /\ is_auth_message m = false) ->
  attempt_result (fetch_result (fetches w + j) url config) = inr data ->
  exists w',
    makeRequest endpoint options w = (Returned data, w') /\
    trace w' = trace w ++
      retry_trace url config (retryAttempts (svc w)) (retryDelay (svc w)) j 1
      ++ [EvFetch url config] /\
    fetches w' = fetches w + S j.
Proof.
  intros url config Hsent Hj Hfail Hok.
  unfold makeRequest. rewrite sent_not_queued by done.
  destruct (attempts_succeed_after j url config data
              (retryAttempts (svc w) - S j) 1 ThrownUndefined w)
    as (w' & Hrun & Ht & Hf); try done; try lia.
  replace (j + S (retryAttempts (svc w) - S j))
    with (retryAttempts (svc w)) in Hrun by lia.
  exists w'. subst url config. by rewrite Hrun.
Qed.

(** A request leaves the client's configuration, storage and the
    provider alone; it can only add to the queue. *)
Lemma makeRequest_frame (w : World) (endpoint : string) (options : Options) :
  let w' := snd (makeRequest endpoint options w) in
  baseURL (svc w') = baseURL (svc w) /\
  apiKey (svc w') = apiKey (svc w) /\
  retryAttempts (svc w') = retryAttempts (svc w) /\
  isOnline (svc w') = isOnline (svc w) /\
  localStorage w' = localStorage w /\
  auth w' = auth w.
Proof.
  unfold makeRequest.
  destruct (negb (isOnline (svc w)) && method_is_not_GET options); [done|].
  match goal with |- context [attempts ?n ?k ?e ?u ?c w] =>
    destruct (attempts_frame n k e u c w) as (-> & _ & _ & -> & ->) end.
  done.
Qed.

(** Once the loop has made an attempt, what it throws is an [Error]. *)
Lemma attempts_throw_Err
    (remaining attempt : nat) (lastError : JsError) (url : string)
    (config : Config) (w : World) (e : JsError) :
  (remaining = 0 -> exists m, lastError = Err m) ->
  fst (attempts remaining attempt lastError url config w) = Thrown e ->
  exists m, e = Err m.
Proof.
  revert attempt lastError w.
  induction remaining as [|n IH]; intros attempt lastError w Hlast; simpl.
  - intros [= <-]. by apply Hlast.
  - unfold attempt_once, fetch.
    destruct (attempt_result _) as [err|data] eqn:Hres; simpl; [|done].
    destruct (attempt_result_Err _ _ Hres) as [m ->]. simpl.
    destruct (is_auth_message m); simpl; [intros [= <-]; eauto|].
    apply IH. eauto.
Qed.

Lemma makeRequest_throws_Err
    (w : World) (endpoint : string) (options : Options) (e : JsError) :
  0 < retryAttempts (svc w) ->
  fst (makeRequest endpoint options w) = Thrown e ->
  exists m, e = Err m.
Proof.
  intros Hpos. unfold makeRequest.
  destruct (negb (isOnline (svc w)) && method_is_not_GET options); [done|].
  apply attempts_throw_Err. lia.
Qed.

(** X2: a request queued while offline is replayed, when the client comes
    back online, with the URL and the configuration (headers included) it
    was queued with, after the entries queued before it, even if [apiKey]
    was changed in between; its promise is settled by that replay. *)
Theorem queued_request_replays_as_enqueued
    (w : World) (endpoint : string) (options : Options) (key : Json) :
  let url := baseURL (svc w) +:+ endpoint in
  let config := build_config (svc w) options in
  let queued := snd (makeRequest endpoint options w) in
  let w' := on_online (set_svc (set_apiKey key) queued) in
  isOnline (svc w) = false ->
  opt_method options <> Some "GET" ->
  queue_wf w ->
  fst (makeRequest endpoint options w) = Suspended (next_promise w) /\
  trace w' = trace w ++ (replay_event <$> requestQueue (svc w)) ++
             [EvFetch url config] /\
  promises w' !! next_promise w
  = Some (replay_settlement
            (fetch_result (fetches w + length (requestQueue (svc w)))
                          url config)).
Proof.
  intros url config queued w' Hoff Hmethod Hwf.
  pose proof (queue_wf_makeRequest w endpoint options Hwf) as Hwfq.
  fold queued in Hwfq.
  assert (Hrun : makeRequest endpoint options w
                 = queueRequest url config w).
  { unfold makeRequest, method_is_not_GET. rewrite Hoff.
    by rewrite bool_decide_eq_false_2. }
  assert (Hq : requestQueue (svc queued)
               = requestQueue (svc w)
                 ++ [mkQueued url config (next_promise w)])
    by (subst queued; by rewrite Hrun).
  assert (Htq : trace queued = trace w /\ fetches queued = fetches w)
    by (subst queued; by rewrite Hrun).
  destruct Htq as [Htq Hfq].
  set (w0 := set_svc (set_isOnline true) (set_svc (set_apiKey key) queued)).
  assert (Hwf0 : queue_wf w0) by done.
  destruct (processQueue_loop_spec (requestQueue (svc w0))
              (length (requestQueue (svc w0))) w0 eq_refl (le_n _) Hwf0)
    as (_ & Htrace & _ & Hsettled & _).
  split; [by rewrite Hrun|].
  assert (Hq0 : requestQueue (svc w0)
                = requestQueue (svc w)
                  ++ [mkQueued url config (next_promise w)]) by done.
  split.
  - subst w'. unfold on_online, processQueue. fold w0.
    rewrite Htrace, Hq0, fmap_app. simpl. by rewrite <- Htq.
  - subst w'. unfold on_online, processQueue. fold w0.
    specialize (Hsettled (length (requestQueue (svc w)))
                  (mkQueued url config (next_promise w))).
    rewrite Hq0 in Hsettled. simpl in Hsettled.
    rewrite <- Hfq, Hq0. apply Hsettled.
    rewrite lookup_app_r by done. by rewrite Nat.sub_diag.
Qed.

(** X3: with at least one attempt configured, the connection test never
    rejects: it resolves to an envelope whose [success] flag is a boolean,
    or stays pending when its health probe was queued. *)
Theorem testConnection_never_throws (w : World) :
  0 < retryAttempts (svc w) ->
  (exists h w', testConnection w = (Suspended h, w')) \/
  (exists result w' b,
     testConnection w = (Returned result, w') /\
     prop result "success" = Some (JBool b)).
Proof.
  intros Hpos. unfold testConnection, try_catch, bind.
  destruct (_ || _); [right; by eexists _, _, true|].
  pose proof (makeRequest_throws_Err w "/api/health" no_options) as Herr.
  destruct (makeRequest "/api/health" no_options w)
    as [[response|e|h] w1]; simpl in *.
  - right. by eexists _, _, true.
  - destruct (Herr e Hpos eq_refl) as [m ->]. simpl.
    right. by eexists _, _, false.
  - left. eauto.
Qed.

(** X4: [authenticate] changes the installed token only when it returns:
    either [apiKey] is what it was, or the call returned a response whose
    truthy [token] is now the [apiKey]. *)
Theorem authenticate_installs_only_returned_token
    (creds : Json) (w : World) :
  let run := authenticate creds w in
  apiKey (svc (snd run)) = apiKey (svc w) \/
  exists response t,
    fst run = Returned response /\
    prop response "token" = Some t /\
    truthy t = true /\
    apiKey (svc (snd run)) = t.
Proof.
  unfold authenticate, try_catch, bind.
  match goal with |- context [makeRequest ?e ?o w] =>
    destruct (makeRequest_frame w e o) as (_ & Hkey & _);
    destruct (makeRequest e o w) as [[response|err|h] w1] end;
    simpl in *; [| left; by destruct err | by left].
  destruct response as [| | | |? |fields]; simpl; try by left.
  destruct (assoc "token" fields) as [t|] eqn:Ht; simpl; [|by left].
  destruct (truthy t) eqn:Htruthy; simpl; [|by left].
  right. by exists (JObj fields), t.
Qed.

(** X5: [refreshToken] keeps the installed token and the stored token in
    step, whichever way the refresh request ends. *)
Theorem refreshToken_keeps_token_in_step (w : World) :
  token_in_step w -> token_in_step (snd (refreshToken w)).
Proof.
  intros Hstep. unfold refreshToken, try_catch, bind, modify.
  assert (Hcleared : forall w1 : World,
            token_in_step
              (set_svc (set_apiKey (JStr "")) (clear_session w1))).
  { intros w1. unfold token_in_step, clear_session. simpl.
    rewrite lookup_delete_ne by done. apply lookup_delete_eq. }
  match goal with |- context [makeRequest ?e ?o w] =>
    destruct (makeRequest_frame w e o) as (_ & Hkey & _ & _ & Hst & _);
    destruct (makeRequest e o w) as [[response|err|h] w1] end;
    simpl in *; [| apply Hcleared |].
  - assert (Hsame : token_in_step w1)
      by (unfold token_in_step; by rewrite Hst, Hkey).
    destruct response as [| | | |? |fields]; simpl; try done;
      try apply Hcleared.
    destruct (assoc "token" fields) as [t|]; simpl; [|done].
    destruct (truthy t) eqn:Ht; simpl; [|done].
    unfold token_in_step. simpl. rewrite Ht. apply lookup_insert_eq.
  - unfold token_in_step. by rewrite Hst, Hkey.
Qed.

(** X6: a write call never answers with substitute data: when every
    attempt of a sent request fails and is retried, the call throws an
    error whose message is the failure prefix followed by the message of
    the last attempt, after [retryAttempts] fetches. *)
Theorem write_call_rethrows
    (endpoint : string) (options : Options) (failure : string) (w : World) :
  let url := baseURL (svc w) +:+ endpoint in
  let config := build_config (svc w) options in
  sent w options ->
  0 < retryAttempts (svc w) ->
  (forall i, i < retryAttempts (svc w) ->
     retried_failure (fetch_result (fetches w + i) url config)) ->
  exists m w',
    attempt_result
      (fetch_result (fetches w + (retryAttempts (svc w) - 1)) url config)
    = inl (Err m) /\
    write_call endpoint options failure w = (Thrown (Err (failure +:+ m)), w') /\
    fetches w' = fetches w + retryAttempts (svc w).
Proof.
  intros url config Hsent Hpos Hall.
  destruct (Hall (retryAttempts (svc w) - 1) ltac:(lia)) as (m & Hm & _).
  unfold write_call, try_catch, bind, makeRequest.
  rewrite sent_not_queued by done.
  destruct (attempts_exhaust (retryAttempts (svc w)) url config 1
              ThrownUndefined w Hall) as (e & w' & Hrun & _ & Hf & He).
  fold url config. rewrite Hrun.
  destruct (retryAttempts (svc w)) as [|n] eqn:Hn; [lia|].
  replace (S n - 1) with n in Hm by lia.
  rewrite Hm in He. injection He as <-. simpl.
  exists m, w'. rewrite Nat.sub_0_r. by rewrite Hm.
Qed.

End WithPlatform.
End ServiceFacts.

(** ** More on the provider: the startup check and failed logins *)

Module ProviderFacts.
Section WithPlatform.
Context `{Platform}.

Lemma checkAuthStatus_idle (apiService : ApiClient) (w : World) :
  stored_pair w = None ->
  checkAuthStatus apiService w
  = (Returned tt,
     mkWorld (svc w) (promises w) (next_promise w) (localStorage w)
             (mkAuth (isAuthenticated (auth w)) (user (auth w)) false None)
             (fetches w) (trace w)).
Proof.
  intros Hnone. unfold checkAuthStatus, finally, try_catch, bind, modify.
  simpl.
  assert (stored_pair (setError None (setIsLoading true w)) = None) as ->
    by done.
  done.
Qed.

(** X7: with no stored pair (a key missing or empty), the startup check
    asks the client nothing: it returns having only cleared the error and
    the loading flag; client, storage, trace and the authenticated flag are
    as before. *)
Theorem checkAuthStatus_without_stored_pair
    (apiService : ApiClient) (w : World) :
  stored_pair w = None ->
  exists w',
    checkAuthStatus apiService w = (Returned tt, w') /\
    svc w' = svc w /\
    localStorage w' = localStorage w /\
    trace w' = trace w /\ fetches w' = fetches w /\
    isAuthenticated (auth w') = isAuthenticated (auth w) /\
    user (auth w') = user (auth w) /\
    isLoading (auth w') = false /\
    error (auth w') = None.
Proof.
  intros Hnone. rewrite (checkAuthStatus_idle apiService w Hnone).
  eexists. split; [reflexivity|]. done.
Qed.

(** X8: when storage holds a token and a user, the connection test
    succeeds and the stored user parses, the startup check restores the
    session: the provider is authenticated with the parsed user, the stored
    token is installed in the client, and loading is over with no error. *)
Theorem checkAuthStatus_restores_session
    (apiService : ApiClient) (w w1 : World) (storedToken storedUser : string)
    (connectionTest parsed : Json) :
  stored_pair w = Some (storedToken, storedUser) ->
  client_testConnection apiService (setError None (setIsLoading true w))
  = (Returned connectionTest, w1) ->
  connectionTest <> JNull ->
  truthy_opt (prop connectionTest "success") = true ->
  JSON_parse storedUser = inr parsed ->
  exists w2,
    checkAuthStatus apiService w = (Returned tt, w2) /\
    isAuthenticated (auth w2) = true /\
    user (auth w2) = parsed /\
    apiKey (svc w2) = JStr storedToken /\
    isLoading (auth w2) = false /\
    error (auth w2) = error (auth w1) /\
    localStorage w2 = localStorage w1.
Proof.
  intros Hpair Htest Hnull Hflag Hparse.
  unfold checkAuthStatus, finally, try_catch, bind, modify. simpl.
  assert (stored_pair (setError None (setIsLoading true w))
          = Some (storedToken, storedUser)) as -> by done.
  rewrite Htest.
  assert (read_prop connectionTest "success"
          = inr (prop connectionTest "success")) as ->
    by (by destruct connectionTest).
  simpl. rewrite Hflag. simpl. rewrite Hparse. simpl.
  eexists. split; [reflexivity|]. done.
Qed.

(** X9: when the stored user does not parse, the startup check stops
    half way: the provider is flagged authenticated but has no user, the
    stored token is not installed in the client, storage is kept, and the
    error reads "Authentication check failed". *)
Theorem checkAuthStatus_unparsable_user
    (apiService : ApiClient) (w w1 : World) (storedToken storedUser : string)
    (connectionTest : Json) (parse_error : JsError) :
  stored_pair w = Some (storedToken, storedUser) ->
  client_testConnection apiService (setError None (setIsLoading true w))
  = (Returned connectionTest, w1) ->
  connectionTest <> JNull ->
  truthy_opt (prop connectionTest "success") = true ->
  JSON_parse storedUser = inl parse_error ->
  exists w2,
    checkAuthStatus apiService w = (Returned tt, w2) /\
    isAuthenticated (auth w2) = true /\
    user (auth w2) = user (auth w1) /\
    apiKey (svc w2) = apiKey (svc w1) /\
    localStorage w2 = localStorage w1 /\
    error (auth w2) = Some "Authentication check failed" /\
    isLoading (auth w2) = false.
Proof.
  intros Hpair Htest Hnull Hflag Hparse.
  unfold checkAuthStatus, finally, try_catch, bind, modify. simpl.
  assert (stored_pair (setError None (setIsLoading true w))
          = Some (storedToken, storedUser)) as -> by done.
  rewrite Htest.
  assert (read_prop connectionTest "success"
          = inr (prop connectionTest "success")) as ->
    by (by destruct connectionTest).
  simpl. rewrite Hflag. simpl. rewrite Hparse. simpl.
  eexists. split; [reflexivity|]. done.
Qed.

(** X10: when [authenticate] throws an error, [login] does not throw: it
    returns [{success: false, error: message}], records the message (or
    "Login failed" when it is empty) as the provider's error, ends
    loading, and writes neither storage nor the client nor the session. *)
Theorem login_failure_is_reported
    (apiService : ApiClient) (creds : Json) (w w1 : World) (m : string) :
  client_authenticate apiService creds (setError None (setIsLoading true w))
  = (Thrown (Err m), w1) ->
  exists w2,
    login apiService creds w
    = (Returned (JObj [("success", JBool false); ("error", JStr m)]), w2) /\
    error (auth w2) = Some (if String.eqb m "" then "Login failed" else m) /\
    isLoading (auth w2) = false /\
    isAuthenticated (auth w2) = isAuthenticated (auth w1) /\
    user (auth w2) = user (auth w1) /\
    localStorage w2 = localStorage w1 /\
    svc w2 = svc w1.
Proof.
  intros Hauth. unfold login, finally, try_catch, bind, modify. simpl.
  rewrite Hauth. simpl. eexists. split; [reflexivity|]. done.
Qed.

(** X11: [logout] followed by a startup check leaves the provider
    anonymous without asking the client anything, whatever the state
    [logout] started from. *)
Theorem logout_then_check_is_anonymous (apiService : ApiClient) (w : World) :
  let run := checkAuthStatus apiService (logout w) in
  fst run = Returned tt /\
  isAuthenticated (auth (snd run)) = false /\
  user (auth (snd run)) = JNull /\
  apiKey (svc (snd run)) = JStr "" /\
  localStorage (snd run) !! "visual_erp_token" = None /\
  localStorage (snd run) !! "visual_erp_user" = None /\
  trace (snd run) = trace w.
Proof.
  assert (Hnone : stored_pair (logout w) = None).
  { unfold stored_pair, logout, clear_session. simpl.
    rewrite lookup_delete_ne by done. by rewrite lookup_delete_eq. }
  simpl. rewrite (checkAuthStatus_idle apiService _ Hnone).
  simpl. repeat split.
  - rewrite lookup_delete_ne by done. apply lookup_delete_eq.
  - apply lookup_delete_eq.
Qed.

End WithPlatform.
End ProviderFacts.

(** ** [ApiService] (api.js): the retry guard, the mappers, the fallback *)

Module BasicFacts.
Section WithPlatform.
Context `{Platform}.

Lemma basic_attempt_once_eq
    (endpoint url : string) (config : Config) (w : World) :
  Basic.attempt_once endpoint url config w
  = (basic_caught endpoint (fetch_result (fetches w) url config),
     snd (fetch url config w)).
Proof.
  unfold Basic.attempt_once, basic_caught, fetch.
  by destruct (fetch_result (fetches w) url config).
Qed.

Lemma named_status_message_clean (r : Response) :
  named_status r ->
  Basic.is_client_error_message (Basic.status_message r) = false.
Proof.
  unfold named_status, Basic.status_message.
  intros [-> | [-> | [-> | Hge]]]; try reflexivity.
  destruct (status r =? 401)%N; [reflexivity|].
  destruct (status r =? 403)%N; [reflexivity|].
  destruct (status r =? 404)%N; [reflexivity|].
  apply N.leb_le in Hge. by rewrite Hge.
Qed.

(** The loop of [request] neither suspends nor touches anything but the
    trace and the fetch counter. *)
Lemma basic_attempts_frame
    (remaining attempt : nat) (lastError : JsError) (endpoint url : string)
    (config : Config) (w : World) :
  let run := Basic.attempts remaining attempt lastError endpoint url config w in
  (forall h, fst run <> Suspended h) /\
  svc (snd run) = svc w /\ promises (snd run) = promises w /\
  next_promise (snd run) = next_promise w /\
  localStorage (snd run) = localStorage w /\ auth (snd run) = auth w.
Proof.
  revert attempt lastError w.
  induction remaining as [|n IH]; intros attempt lastError w;
    cbn [Basic.attempts]; [done|].
  rewrite basic_attempt_once_eq.
  destruct (basic_caught _ _) as [e|data]; simpl; [|done].
  destruct (error_message e) as [te|m]; simpl; [done|].
  destruct (Basic.is_client_error_message m); simpl; [done|].
  match goal with |- context [Basic.attempts n _ _ _ _ _ ?w2] =>
    specialize (IH (S attempt) e w2); simpl in IH;
    destruct IH as (Hs & -> & -> & -> & -> & ->) end.
  split; [done|]. by destruct (attempt <? _).
Qed.

(** When every attempt fails with a message the guard does not match, the
    loop of [request] makes all of its attempts. *)
Lemma basic_attempts_exhaust
    (remaining : nat) (endpoint url : string) (config : Config) :
  forall (attempt : nat) (lastError : JsError) (w : World),
    (forall i, i < remaining ->
       exists m,
         basic_caught endpoint (fetch_result (fetches w + i) url config)
         = inl (Err m) /\
         Basic.is_client_error_message m = false) ->
    exists e w',
      Basic.attempts remaining attempt lastError endpoint url config w
      = (Thrown e, w') /\
      trace w' = trace w ++
        retry_trace url config (retryAttempts (svc w)) (retryDelay (svc w))
                    remaining attempt /\
      fetches w' = fetches w + remaining /\
      match remaining with
      | 0 => e = lastError
      | S n =>
          basic_caught endpoint (fetch_result (fetches w + n) url config)
          = inl e
      end.
Proof.
  induction remaining as [|n IH]; intros attempt lastError w Hall;
    cbn [Basic.attempts retry_trace].
  - exists lastError, w. by rewrite app_nil_r, Nat.add_0_r.
  - destruct (Hall 0 ltac:(lia)) as (m & Hm & Hclean).
    rewrite Nat.add_0_r in Hm.
    rewrite basic_attempt_once_eq, Hm. simpl. rewrite Hclean.
    match goal with |- context [Basic.attempts n _ _ _ _ _ ?w2] =>
      set (w2' := w2) end.
    assert (Hsvc : svc w2' = svc w) by (subst w2'; by destruct (attempt <? _)).
    assert (Hfetches : fetches w2' = S (fetches w))
      by (subst w2'; by destruct (attempt <? _)).
    assert (Htrace : trace w2' = trace w ++ EvFetch url config ::
              (if attempt <? retryAttempts (svc w)
               then [EvDelay (retryDelay (svc w) * attempt)] else []))
      by (subst w2'; destruct (attempt <? _); simpl;
          by rewrite <- ?app_assoc).
    destruct (IH (S attempt) (Err m) w2') as (e & w' & Hrun & Ht & Hf & He).
    { intros i Hi. rewrite Hfetches.
      replace (S (fetches w) + i) with (fetches w + S i) by lia.
      apply Hall. lia. }
    exists e, w'. rewrite Hrun. split; [done|].
    rewrite Ht, Htrace, Hsvc, Hf, Hfetches.
    split; [by rewrite <- app_assoc|]. split; [lia|].
    destruct n as [|n'].
    + rewrite Nat.add_0_r. by rewrite He.
    + rewrite Hfetches in He.
      by replace (fetches w + S n') with (S (fetches w) + n') by lia.
Qed.

Lemma basic_attempts_all_fail
    (remaining : nat) (endpoint url : string) (config : Config) :
  (forall n, exists e,
     basic_caught endpoint (fetch_result n url config) = inl e) ->
  forall (attempt : nat) (lastError : JsError) (w : World),
    exists e w',
      Basic.attempts remaining attempt lastError endpoint url config w
      = (Thrown e, w').
Proof.
  intros Hall. induction remaining as [|n IH]; intros attempt lastError w;
    cbn [Basic.attempts].
  - eauto.
  - rewrite basic_attempt_once_eq.
    destruct (Hall (fetches w)) as [e ->]. simpl.
    destruct (error_message e) as [te|m]; [eauto|].
    destruct (Basic.is_client_error_message m); [eauto|]. apply IH.
Qed.

(** X12: [request] never queues and never leaves its caller pending: it
    returns or throws, with the queue, the promises, storage and the
    provider untouched; while the client is offline it throws "No internet
    connection available" at once, without a fetch. *)
Theorem basic_request_never_queues
    (endpoint : string) (options : Options) (w : World) :
  let run := Basic.request endpoint options w in
  (forall h, fst run <> Suspended h) /\
  svc (snd run) = svc w /\
  promises (snd run) = promises w /\
  localStorage (snd run) = localStorage w /\
  (isOnline (svc w) = false ->
   run = (Thrown (Err "No internet connection available"), w)).
Proof.
  unfold Basic.request. destruct (isOnline (svc w)); simpl; [|done].
  match goal with |- context [Basic.attempts ?n ?k ?e ?ep ?u ?c w] =>
    destruct (basic_attempts_frame n k e ep u c w)
      as (Hs & Hsvc & Hp & _ & Hst & _) end.
  done.
Qed.

(** X13: in [request], a response whose status is 401, 403, 404 or 500
    and above is thrown with a fixed message that carries no status code,
    so the guard that searches the message for "401", "403", "400" and
    "404" does not stop the loop: when every attempt is answered so, the
    request is fetched [retryAttempts] times, with the delays in between,
    before the error of the last attempt is thrown. *)
Theorem basic_named_statuses_are_retried
    (endpoint : string) (options : Options) (w : World) :
  let url := baseURL (svc w) +:+ endpoint in
  let config := Basic.build_config (svc w) options in
  isOnline (svc w) = true ->
  0 < retryAttempts (svc w) ->
  (forall i, i < retryAttempts (svc w) ->
     exists r,
       fetch_result (fetches w + i) url config = Responded r /\
       ok r = false /\ named_status r) ->
  exists r w',
    fetch_result (fetches w + (retryAttempts (svc w) - 1)) url config
    = Responded r /\
    Basic.request endpoint options w
    = (Thrown (Err (Basic.status_message r)), w') /\
    trace w' = trace w ++
      retry_trace url config (retryAttempts (svc w)) (retryDelay (svc w))
                  (retryAttempts (svc w)) 1.
Proof.
  intros url config Hon Hpos Hall.
  assert (Hclean : forall i, i < retryAttempts (svc w) ->
            exists m,
              basic_caught endpoint (fetch_result (fetches w + i) url config)
              = inl (Err m) /\
              Basic.is_client_error_message m = false).
  { intros i Hi. destruct (Hall i Hi) as (r & -> & Hok & Hnamed).
    exists (Basic.status_message r). simpl. rewrite Hok. simpl.
    split; [done|]. by apply named_status_message_clean. }
  destruct (Hall (retryAttempts (svc w) - 1) ltac:(lia))
    as (r & Hr & Hok & _).
  unfold Basic.request. rewrite Hon. simpl.
  destruct (basic_attempts_exhaust (retryAttempts (svc w)) endpoint url config
              1 ThrownUndefined w Hclean) as (e & w' & Hrun & Ht & _ & He).
  fold url config. rewrite Hrun.
  destruct (retryAttempts (svc w)) as [|n] eqn:Hn; [lia|].
  replace (S n - 1) with n in * by lia. rewrite Hr in He. simpl in He.
  rewrite Hok in He. simpl in He. injection He as <-.
  by exists r, w'.
Qed.

(** X14: [getProducts] of [ApiService] falls back to its mock products
    only in development: when the client is online and no fetch gets
    through, it returns the mock products if the base URL contains
    "localhost" and no [apiKey] is set, and rethrows the error otherwise. *)
Theorem basic_getProducts_fallback_is_gated (w : World) :
  isOnline (svc w) = true ->
  (forall n url config, exists m, fetch_result n url config = NetworkError m) ->
  (includes (baseURL (svc w)) "localhost" && negb (truthy (apiKey (svc w)))
   = true ->
   fst (Basic.getProducts w) = Returned Basic.getMockProducts) /\
  (includes (baseURL (svc w)) "localhost" && negb (truthy (apiKey (svc w)))
   = false ->
   exists e, fst (Basic.getProducts w) = Thrown e).
Proof.
  intros Hon Hdown.
  unfold Basic.getProducts, try_catch, Basic.request. rewrite Hon. simpl.
  match goal with |- context [Basic.attempts ?n ?k ?e ?ep ?u ?c w] =>
    destruct (basic_attempts_frame n k e ep u c w) as (_ & Hsvc & _);
    destruct (basic_attempts_all_fail n ep u c) with
      (attempt := k) (lastError := e) (w := w) as (err & w1 & Hrun)
  end.
  { intros n. destruct (Hdown n (baseURL (svc w) +:+ "/api/inventory/products")
                          (Basic.build_config (svc w) no_options)) as [m ->].
    simpl. eauto. }
  rewrite Hrun in *. simpl in Hsvc. rewrite Hsvc.
  split; intros ->; simpl; eauto.
Qed.

End WithPlatform.
End BasicFacts.

(** ** The session, with the client that the provider imports *)

Module SessionFacts.
Import BasicFacts.
Section WithPlatform.
Context `{Platform}.






Lemma stored_pair_loading (w : World) :
  stored_pair (setError None (setIsLoading true w)) = stored_pair w.
Proof. reflexivity. Qed.









End WithPlatform.
End SessionFacts.

(** ** More on the quote form: line items and what gets submitted *)

Module FormFacts.
Import QuoteCRUD QuoteFacts.

Lemma delete_take_drop {A} (l : list A) (index : nat) :
  delete index l = take index l ++ drop (S index) l.
Proof.
  revert index. induction l as [|first rest IH]; intros [|index]; simpl;
    try done.
  by rewrite <- IH.
Qed.

Lemma blank_false (title : jstring) :
  blank title = false -> exists c, c ∈ title /\ is_space c = false.
Proof.
  induction title as [|c rest IH]; simpl; [done|].
  destruct (is_space c) eqn:Hc; simpl.
  - intros Hrest. destruct (IH Hrest) as (c' & Hin & Hc').
    exists c'. split; [apply elem_of_cons; by right | done].
  - intros _. exists c. split; [apply elem_of_cons; by left | done].
Qed.

Section WithFormat.
Context `{NumberFormat}.

(** X15: adding a line item (quantity 1, unit price 0) to a form leaves
    the total that would be submitted unchanged. *)
Theorem added_line_keeps_total
    (formData : gmap string FormValue) (items : list LineItem) :
  formData !! "lineItems" = Some (FItems items) ->
  form_items (addLineItem formData)
  = items ++ [mkLineItem [] [] (number_of_Z 1) (number_of_Z 0)] /\
  quoteData (addLineItem formData) !! "total" = quoteData formData !! "total".
Proof.
  intros Hitems.
  assert (Hnew : form_items (addLineItem formData)
                 = items ++ [mkLineItem [] [] (number_of_Z 1) (number_of_Z 0)]).
  { unfold addLineItem, form_items. rewrite lookup_insert_eq.
    by rewrite Hitems. }
  split; [done|]. rewrite !quoteData_total, Hnew.
  unfold form_items. rewrite Hitems. do 2 f_equal.
  unfold sum_of_lines. rewrite add_lines_app. cbn [add_lines].
  change (line_amount (mkLineItem [] [] (number_of_Z 1) (number_of_Z 0)))
    with (S754_zero false).
  apply NumberFacts.number_add_zero_r, sum_of_lines_regular.
Qed.

(** X16: removing the line item at an index of the form leaves the other
    lines in their order, and an index past the end changes nothing; the
    total that would be submitted afterwards is the sum of the lines that
    are left.  Removing the line that was just added gives back the lines
    and the total of before. *)
Theorem removed_line_leaves_the_rest
    (formData : gmap string FormValue) (items : list LineItem)
    (index : nat) :
  formData !! "lineItems" = Some (FItems items) ->
  form_items (removeLineItem index formData)
  = take index items ++ drop (S index) items /\
  (length items <= index ->
   form_items (removeLineItem index formData) = items) /\
  quoteData (removeLineItem index formData) !! "total"
  = Some (FNum (sum_of_lines (take index items ++ drop (S index) items))) /\
  form_items (removeLineItem (length items) (addLineItem formData)) = items /\
  quoteData (removeLineItem (length items) (addLineItem formData)) !! "total"
  = quoteData formData !! "total".
Proof.
  intros Hitems.
  assert (Hremoved : forall i form l,
            form !! "lineItems" = Some (FItems l) ->
            form_items (removeLineItem i form) = take i l ++ drop (S i) l).
  { intros i form l Hl. unfold removeLineItem, form_items at 1.
    rewrite lookup_insert_eq. unfold form_items. rewrite Hl.
    apply delete_take_drop. }
  assert (Hadded : addLineItem formData !! "lineItems"
                   = Some (FItems (items ++ [mkLineItem [] [] (number_of_Z 1)
                                               (number_of_Z 0)]))).
  { unfold addLineItem. rewrite lookup_insert_eq. unfold form_items.
    by rewrite Hitems. }
  assert (Hback : form_items (removeLineItem (length items)
                                (addLineItem formData)) = items).
  { rewrite (Hremoved _ _ _ Hadded).
    rewrite take_app_length, drop_ge by (rewrite length_app; simpl; lia).
    by rewrite app_nil_r. }
  split; [by apply Hremoved|]. split; [|split; [|split]].
  - intros Hlen. rewrite (Hremoved _ _ _ Hitems).
    rewrite take_ge, drop_ge by lia. by rewrite app_nil_r.
  - by rewrite quoteData_total, (Hremoved _ _ _ Hitems).
  - exact Hback.
  - rewrite !quoteData_total, Hback. unfold form_items. by rewrite Hitems.
Qed.

(** X17: a quote is submitted only from a form whose title is a string
    with a code unit other than white space in it, whose customer and
    valid-until fields are truthy, and which has at least one line item;
    what is submitted is the form with [customerId] parsed and [total]
    recomputed as the sum of the lines, every other key unchanged. *)
Theorem submitted_form_is_complete
    (formData : gmap string FormValue) (editingQuote : option Json)
    (s : Submission) :
  handleSubmit formData editingQuote = Some s ->
  (exists title items customer validUntil,
     formData !! "title" = Some (FStr title) /\
     (exists c, c ∈ title /\ is_space c = false) /\
     formData !! "lineItems" = Some (FItems items) /\ items <> [] /\
     formData !! "customerId" = Some customer /\
     form_truthy customer = true /\
     formData !! "validUntil" = Some validUntil /\
     form_truthy validUntil = true) /\
  submitted_data s !! "customerId"
  = Some (FNum (parseInt (formData !! "customerId"))) /\
  submitted_data s !! "total"
  = Some (FNum (sum_of_lines (form_items formData))) /\
  (forall k, k <> "total" -> k <> "customerId" ->
     submitted_data s !! k = formData !! k).
Proof.
  unfold handleSubmit. destruct (validateForm formData) eqn:Hvalid;
    [|discriminate].
  intros [= <-]. unfold validateForm in Hvalid.
  destruct (formData !! "title") as [[title| |]|] eqn:Htitle; try done.
  destruct (formData !! "lineItems") as [[| |items]|] eqn:Hitems; try done.
  apply andb_prop in Hvalid as [Hvalid Hlen].
  apply andb_prop in Hvalid as [Hvalid Hdate].
  apply andb_prop in Hvalid as [Hblank Hcust].
  assert (Hdata : submitted_data
                    match editingQuote with
                    | Some id => UpdateQuote id (quoteData formData)
                    | None => CreateQuote (quoteData formData)
                    end = quoteData formData) by (by destruct editingQuote).
  rewrite Hdata.
  destruct (formData !! "customerId") as [customer|] eqn:Hc; [|done].
  destruct (formData !! "validUntil") as [validUntil|] eqn:Hv; [|done].
  split; [|split; [|split]].
  - exists title, items, customer, validUntil. repeat split; try done.
    + apply blank_false. by destruct (blank title).
    + intros ->. done.
  - unfold quoteData. rewrite lookup_insert_ne by done.
    by rewrite lookup_insert_eq, Hc.
  - apply quoteData_total.
  - intros k Hk1 Hk2. unfold quoteData.
    by rewrite !lookup_insert_ne.
Qed.

End WithFormat.

End FormFacts.

(** ** [ApiService]: the response mappers *)

Module MapperFacts.
Section WithPlatform.
Context `{Platform}.

(** X18: on the three list endpoints [request] unwraps the envelope: when
    the first fetch is answered with an object whose resource key holds a
    truthy value, that value is returned; when it is answered with a bare
    array, the array is returned as it is. *)
Theorem basic_list_response_is_unwrapped
    (endpoint key : string) (options : Options) (w : World) (r : Response)
    (data : Json) :
  (endpoint, key) ∈ [("/api/inventory/products", "products");
                     ("/api/customers", "customers");
                     ("/api/quotes", "quotes")] ->
  isOnline (svc w) = true ->
  0 < retryAttempts (svc w) ->
  fetch_result (fetches w) (baseURL (svc w) +:+ endpoint)
    (Basic.build_config (svc w) options) = Responded r ->
  ok r = true ->
  body r = Parsed data ->
  (forall fields v,
     data = JObj fields -> assoc key fields = Some v -> truthy v = true ->
     fst (Basic.request endpoint options w) = Returned v) /\
  (forall items,
     data = JArr items ->
     fst (Basic.request endpoint options w) = Returned (JArr items)).
Proof.
  intros Hin Hon Hpos Hfetch Hok Hbody.
  unfold Basic.request. rewrite Hon. simpl.
  destruct (retryAttempts (svc w)) as [|n]; [lia|].
  cbn [Basic.attempts]. unfold Basic.attempt_once, fetch.
  rewrite Hfetch. simpl. rewrite Hok, Hbody. simpl.
  assert (Hkey : Basic.mapper_key endpoint = Some (Some key)).
  { repeat (apply elem_of_cons in Hin as [[= -> ->] | Hin]; [done|]).
    by apply elem_of_nil in Hin. }
  unfold Basic.apply_mapper. rewrite Hkey. split.
  - intros fields v -> Hv Ht. simpl. by rewrite Hv, Ht.
  - by intros items ->.
Qed.

End WithPlatform.
End MapperFacts.

(** ** Reads of one record, and [truncateName] *)

Module ItemFacts.
Import Enhanced.
Section WithPlatform.
Context `{Platform}.

Lemma find_by_id_Some (mock : Json) (listKey : string) (id item : Json) :
  find_by_id mock listKey id = Some item ->
  exists items pid,
    prop mock listKey = Some (JArr items) /\ item ∈ items /\
    prop item "id" = Some pid /\ strict_eq pid id = true.
Proof.
  unfold find_by_id.
  destruct (prop mock listKey) as [[| | | |items|]|]; try done.
  intros Hfind. apply List.find_some in Hfind as [Hin Hid].
  destruct (prop item "id") as [pid|] eqn:Hpid; [|done].
  exists items, pid. repeat split; try done. by apply list_elem_of_In.
Qed.

Lemma find_by_id_None (mock : Json) (listKey : string) (id : Json)
    (items : list Json) :
  prop mock listKey = Some (JArr items) ->
  find_by_id mock listKey id = None ->
  forall item pid,
    item ∈ items -> prop item "id" = Some pid -> strict_eq pid id = false.
Proof.
  unfold find_by_id. intros -> Hfind item pid Hin Hpid.
  apply list_elem_of_In in Hin.
  pose proof (List.find_none _ _ Hfind item Hin) as Hno. simpl in Hno.
  by rewrite Hpid in Hno.
Qed.

(** X19: a read of one record ([getProduct], [getCustomer], [getQuote])
    never throws.  When its request throws, it answers from the mock data,
    whose records are truthy: with [{success: true, <item>: record}] for
    a record of the mock list whose [id] is strictly equal to the id asked
    for, and with [{success: false, error: <not found>}] when the mock
    list has no record with such an id. *)
Theorem item_call_outcomes
    (path listKey itemKey notFound : string) (mock id : Json) (w : World)
    (records : list Json) :
  let request := makeRequest (path +:+ "/" +:+ template id) no_options w in
  let run := item_call path listKey itemKey notFound mock id w in
  prop mock listKey = Some (JArr records) ->
  Forall (fun item => truthy item = true) records ->
  (forall e, fst run <> Thrown e) /\
  (forall e w1,
     request = (Thrown e, w1) ->
     (exists item pid,
        run = (Returned (JObj [("success", JBool true); (itemKey, item)]), w1)
        /\ item ∈ records
        /\ prop item "id" = Some pid /\ strict_eq pid id = true) \/
     (run = (Returned (JObj [("success", JBool false);
                             ("error", JStr notFound)]), w1) /\
      forall item pid,
        item ∈ records -> prop item "id" = Some pid ->
        strict_eq pid id = false)).
Proof.
  intros request run Hlist Htruthy. subst request run.
  unfold item_call, try_catch. split.
  - intros e. by destruct (makeRequest _ no_options w) as [[?|?|?] ?].
  - intros e w1 ->. simpl.
    destruct (find_by_id mock listKey id) as [item|] eqn:Hfind.
    + destruct (find_by_id_Some _ _ _ _ Hfind)
        as (items & pid & Hlist' & Hin & Hpid & Heq).
      rewrite Hlist in Hlist'. injection Hlist' as <-.
      rewrite Forall_forall in Htruthy. rewrite (Htruthy item Hin).
      left. by exists item, pid.
    + right. split; [done|]. intros item pid Hin Hpid.
      by apply (find_by_id_None mock listKey id records Hlist Hfind item pid).
Qed.

(** X20: [truncateName] returns a name that is not longer than
    [maxLength] code units as it is; a longer name is cut to its first
    [maxLength] code units followed by three dots, so the result has
    [maxLength + 3] code units; an empty or missing name gives
    "Unnamed Item". *)
Theorem truncateName_outcomes (name : jstring) (maxLength : nat) :
  truncateName None maxLength = units "Unnamed Item" /\
  truncateName (Some []) maxLength = units "Unnamed Item" /\
  (name <> [] -> length name <= maxLength ->
   truncateName (Some name) maxLength = name) /\
  (maxLength < length name ->
   truncateName (Some name) maxLength = take maxLength name ++ units "..." /\
   length (truncateName (Some name) maxLength) = maxLength + 3 /\
   name = take maxLength name ++ drop maxLength name).
Proof.
  split; [done|]. split; [done|]. split.
  - intros Hne Hlen. unfold truncateName.
    destruct name as [|c rest]; [done|].
    by assert ((maxLength <? length (c :: rest)) = false) as ->
      by (apply Nat.ltb_ge; lia).
  - intros Hlen. unfold truncateName.
    destruct name as [|c rest]; [simpl in Hlen; lia|].
    assert ((maxLength <? length (c :: rest)) = true) as ->
      by (by apply Nat.ltb_lt).
    split; [done|]. split.
    + rewrite length_app, length_take.
      change (length (units "...")) with 3. lia.
    + by rewrite take_drop.
Qed.

End WithPlatform.
End ItemFacts.

(** ** Editing a quote and saving it *)

Module EditFacts.
Import QuoteCRUD QuoteFacts.

Lemma units_cons (c : ascii) (s : string) :
  units (String c s) = N_of_ascii c :: units s.
Proof. reflexivity. Qed.

Lemma digit_value_pretty_char (d : N) :
  (d < 10)%N ->
  digit_value 10 (N_of_ascii (pretty_N_char d)) = Some (Z.of_N d).
Proof.
  intros Hd.
  assert (d = 0 \/ d = 1 \/ d = 2 \/ d = 3 \/ d = 4 \/ d = 5 \/ d = 6 \/
          d = 7 \/ d = 8 \/ d = 9)%N as Hcases by lia.
  repeat destruct Hcases as [-> | Hcases]; try reflexivity.
  by subst.
Qed.

(** Reading back the digits that [pretty] writes in front of [s]. *)
Lemma leading_digits_pretty_go (x : N) :
  forall s,
    (0 < x)%N ->
    leading_digits 10 (units (pretty_N_go x s)) None
    = leading_digits 10 (units s) (Some (Z.of_N x)).
Proof.
  induction (N.lt_wf_0 x) as [x _ IH]; intros s Hpos.
  rewrite pretty_N_go_step by done.
  assert (Hd : (x `mod` 10 < 10)%N) by (by apply N.mod_lt).
  assert (Hx : x = (10 * (x `div` 10) + x `mod` 10)%N)
    by (by apply N.div_mod).
  destruct (decide (x `div` 10 = 0)%N) as [Hz | Hnz].
  - rewrite Hz, pretty_N_go_0, units_cons. cbn [leading_digits].
    rewrite digit_value_pretty_char by done. simpl default.
    do 2 f_equal. lia.
  - rewrite IH; [|apply N.div_lt; lia | lia].
    rewrite units_cons. cbn [leading_digits].
    rewrite digit_value_pretty_char by done. simpl default.
    do 2 f_equal. lia.
Qed.

Lemma all_digits_pretty_go (x : N) :
  forall s,
    all_digits (units s) = true ->
    all_digits (units (pretty_N_go x s)) = true.
Proof.
  induction (N.lt_wf_0 x) as [x _ IH]; intros s Hs.
  destruct (decide (x = 0)%N) as [-> | Hnz]; [by rewrite pretty_N_go_0|].
  rewrite pretty_N_go_step by lia. apply IH; [apply N.div_lt; lia|].
  rewrite units_cons. cbn [all_digits].
  rewrite digit_value_pretty_char; [done|]. by apply N.mod_lt.
Qed.

Lemma pretty_go_nonempty (x : N) (s : string) :
  (0 < x)%N -> units (pretty_N_go x s) <> [].
Proof.
  revert s. induction (N.lt_wf_0 x) as [x _ IH]; intros s Hpos.
  rewrite pretty_N_go_step by done.
  destruct (decide (x `div` 10 = 0)%N) as [-> | Hnz].
  - by rewrite pretty_N_go_0.
  - apply IH; [by apply N.div_lt | by apply N.neq_0_lt_0].
Qed.

(** A decimal digit is none of the code units [parseInt] treats
    specially. *)
Lemma digit_is_plain (c : N) (d : Z) :
  digit_value 10 c = Some d ->
  is_space c = false /\ (c =? 45)%N = false /\ (c =? 43)%N = false /\
  (c =? 120)%N = false /\ (c =? 88)%N = false.
Proof.
  unfold digit_value.
  destruct (48 <=? c)%N eqn:Hlo; [|done].
  destruct (c <=? 57)%N eqn:Hhi; [|done].
  intros _. apply N.leb_le in Hlo, Hhi.
  assert (c = 48 \/ c = 49 \/ c = 50 \/ c = 51 \/ c = 52 \/ c = 53 \/
          c = 54 \/ c = 55 \/ c = 56 \/ c = 57)%N as Hcases by lia.
  repeat destruct Hcases as [-> | Hcases]; try done.
  by subst.
Qed.

Lemma parse_magnitude_digits (s : jstring) :
  all_digits s = true -> parse_magnitude s = leading_digits 10 s None.
Proof.
  intros Hdigits. unfold parse_magnitude.
  destruct s as [|c [|c2 s]]; [done|done|].
  simpl in Hdigits.
  destruct (digit_value 10 c) as [d|]; [|done].
  destruct (digit_value 10 c2) as [d2|] eqn:Hc2; [|done].
  destruct (digit_is_plain c2 d2 Hc2) as (_ & _ & _ & -> & ->).
  by rewrite andb_false_r.
Qed.

(** On a non-empty string of digits, [parseInt] takes the decimal
    branch and reads the digits. *)
Lemma parseInt_digits (s : jstring) :
  s <> [] -> all_digits s = true ->
  parseInt_string s
  = match leading_digits 10 s None with
    | Some n => number_of_Z n
    | None => NaN
    end.
Proof.
  intros Hne Hdigits.
  pose proof (parse_magnitude_digits s Hdigits) as Hmag.
  destruct s as [|c s]; [done|]. simpl in Hdigits.
  destruct (digit_value 10 c) as [d|] eqn:Hc; [|done].
  destruct (digit_is_plain c d Hc) as (Hspace & Hminus & Hplus & _).
  unfold parseInt_string. cbn [skip_spaces]. rewrite Hspace, Hminus, Hplus.
  by rewrite Hmag.
Qed.

(** [parseInt] reads back the decimal digits of an integer as the number
    nearest to it. *)
Lemma parseInt_pretty (n : Z) :
  parseInt_string (units (pretty n)) = number_of_Z n.
Proof.
  unfold pretty, pretty_Z.
  destruct n as [|p|p]; [done| |].
  - unfold pretty, pretty_positive, pretty, pretty_N.
    case_decide; [done|].
    rewrite parseInt_digits.
    + by rewrite leading_digits_pretty_go.
    + by apply pretty_go_nonempty.
    + by apply all_digits_pretty_go.
  - unfold pretty, pretty_positive, pretty, pretty_N.
    case_decide; [done|].
    assert (Hmag : parse_magnitude (units (pretty_N_go (N.pos p) ""))
                   = Some (Z.pos p)).
    { rewrite parse_magnitude_digits by (by apply all_digits_pretty_go).
      by rewrite leading_digits_pretty_go. }
    change (units ("-" +:+ pretty_N_go (N.pos p) ""))
      with (45%N :: units (pretty_N_go (N.pos p) "")).
    unfold parseInt_string. cbn [skip_spaces].
    change (is_space 45) with false. cbv iota.
    change (45 =? 45)%N with true. cbv iota. by rewrite Hmag.
Qed.

Lemma pretty_nonempty (n : Z) : units (pretty n) <> [].
Proof.
  unfold pretty, pretty_Z. destruct n as [|p|p]; try done.
  unfold pretty, pretty_positive, pretty, pretty_N.
  case_decide; [done|]. by apply pretty_go_nonempty.
Qed.

Section WithFormat.
Context `{NumberFormat}.

(** X21: editing a quote of the list and saving the form unchanged
    submits an update that carries the quote's customer id (an integer that
    [toString] writes in decimal, parsed back by [parseInt]), its title,
    the day of its valid-until date and its line items, with a total
    recomputed from the line items, whatever total the quote held. *)
Theorem edited_quote_resubmits
    (iso_day : FormValue -> option jstring)
    (quote : gmap string FormValue) (id : Json)
    (title day : jstring) (customer : Z) (validUntil : FormValue)
    (items : list LineItem) :
  quote !! "title" = Some (FStr title) ->
  blank title = false ->
  quote !! "customerId" = Some (FNum (number_of_Z customer)) ->
  Number_toString (number_of_Z customer) = units (pretty customer) ->
  quote !! "validUntil" = Some validUntil ->
  form_truthy validUntil = true ->
  iso_day validUntil = Some day ->
  day <> [] ->
  quote !! "lineItems" = Some (FItems items) ->
  items <> [] ->
  exists form data,
    handleEdit iso_day quote = Some form /\
    handleSubmit form (Some id) = Some (UpdateQuote id data) /\
    data !! "customerId" = Some (FNum (number_of_Z customer)) /\
    data !! "total" = Some (FNum (sum_of_lines items)) /\
    data !! "title" = Some (FStr title) /\
    data !! "validUntil" = Some (FStr day) /\
    data !! "lineItems" = Some (FItems items).
Proof.
  intros Htitle Hblank Hcust Hprint Hvalid Htruthy Hday Hne Hitems Hnonempty.
  unfold handleEdit. rewrite Hvalid, Htruthy, Hday, Hitems, Hcust, Htitle.
  assert (form_truthy (FItems items) = true) as -> by done.
  cbn [toString]. rewrite Hprint.
  match goal with |- exists _ _, Some ?f = _ /\ _ => set (form := f) end.
  exists form, (quoteData form). split; [reflexivity|].
  assert (Hf_title : form !! "title" = Some (FStr title)).
  { subst form. rewrite !lookup_insert_ne by done. apply lookup_insert_eq. }
  assert (Hf_cust : form !! "customerId"
                    = Some (FStr (units (pretty customer)))).
  { subst form. rewrite !lookup_insert_ne by done. apply lookup_insert_eq. }
  assert (Hf_day : form !! "validUntil" = Some (FStr day)).
  { subst form. rewrite !lookup_insert_ne by done. apply lookup_insert_eq. }
  assert (Hf_items : form !! "lineItems" = Some (FItems items)).
  { subst form. apply lookup_insert_eq. }
  assert (Hvalidate : validateForm form = true).
  { unfold validateForm. rewrite Hf_title, Hf_items, Hf_cust, Hf_day, Hblank.
    simpl. pose proof (pretty_nonempty customer) as Hp.
    destruct (units (pretty customer)); [done|].
    destruct day; [done|]. destruct items; done. }
  split.
  - unfold handleSubmit. by rewrite Hvalidate.
  - split; [|split; [|unfold quoteData; by rewrite !lookup_insert_ne]].
    + unfold quoteData. rewrite lookup_insert_ne by done.
      rewrite lookup_insert_eq, Hf_cust. cbn [parseInt toString].
      by rewrite parseInt_pretty.
    + rewrite quoteData_total. unfold form_items. by rewrite Hf_items.
Qed.

End WithFormat.

End EditFacts.

(** ** The analytics queues *)

Module AnalyticsFacts.
Import Analytics.
Section WithPlatform.
Context `{Platform}.

(** X22: in a production build with an API configured, flushing a
    non-empty error queue posts all queued errors in one request; the
    queue is empty afterwards when the response is ok, and holds the same
    errors in the same order when the request fails or is refused. The
    event queue and storage are not touched. *)
Theorem flush_keeps_unsent_errors (a : Service) (w : World) :
  let url := apiURL a +:+ "/api/analytics/errors" in
  let config :=
    mkConfig (Some "POST") [("Content-Type", "application/json")]
      (Some (JSON_stringify (JObj [("errors", JArr (errorQueue a))]))) in
  let run := flushErrorQueue a w in
  isProduction a = true ->
  apiURL a <> "" ->
  errorQueue a <> [] ->
  trace (snd run) = trace w ++ [EvFetch url config] /\
  errorQueue (fst run)
  = match fetch_result (fetches w) url config with
    | Responded r => if ok r then [] else errorQueue a
    | NetworkError _ => errorQueue a
    end /\
  eventQueue (fst run) = eventQueue a /\
  localStorage (snd run) = localStorage w.
Proof.
  intros url config run Hprod Hurl Hne. subst run.
  unfold flushErrorQueue.
  destruct (errorQueue a) as [|first rest] eqn:Hq; [done|].
  unfold sendData. simpl. rewrite Hprod.
  destruct (String.eqb_spec (apiURL a) ""); [done|]. simpl.
  unfold fetch. subst url config.
  destruct (fetch_result _ _ _) as [m|r]; simpl.
  - by rewrite app_nil_r.
  - destruct (ok r); simpl; [done|]. by rewrite app_nil_r.
Qed.

Lemma length_last_100 (l : list Json) :
  length (last_100 l) = length l `min` 100.
Proof. unfold last_100. rewrite length_drop. lia. Qed.

(** X23: outside production, what is sent is stored locally instead:
    when the stored text for the endpoint parses to an array,
    [storeLocally] appends the new errors to it and stores the last 100
    entries of the result, dropping the oldest ones only when there are
    more than 100; other storage keys are left alone. *)
Theorem local_store_keeps_last_100
    (endpoint : string) (w : World) (existing errors : list Json) :
  let key := "analytics_" +:+ slashes_to_underscores endpoint in
  let w' := storeLocally endpoint (JObj [("errors", JArr errors)]) w in
  JSON_parse match localStorage w !! key with
             | Some s => if String.eqb s "" then "[]" else s
             | None => "[]"
             end = inr (JArr existing) ->
  exists dropped kept,
    localStorage w' !! key = Some (JSON_stringify (JArr kept)) /\
    existing ++ errors = dropped ++ kept /\
    length kept = (length existing + length errors) `min` 100 /\
    (forall k, k <> key -> localStorage w' !! k = localStorage w !! k).
Proof.
  intros key w' Hparse. subst w'. unfold storeLocally, stored_update.
  fold key. rewrite Hparse. simpl. rewrite app_nil_r.
  exists (take (length (existing ++ errors) - 100) (existing ++ errors)),
         (last_100 (existing ++ errors)).
  repeat split.
  - apply lookup_insert_eq.
  - unfold last_100. by rewrite take_drop.
  - rewrite length_last_100, length_app. done.
  - intros k Hk. by rewrite lookup_insert_ne.
Qed.

End WithPlatform.
End AnalyticsFacts.

(** ** The startup check with the client that the provider imports *)

Module StartupFacts.
Import BasicFacts SessionFacts.
Section WithPlatform.
Context `{Platform}.

(** X28: with the [ApiService] of api.js, a startup check made while the
    client is offline ends the stored session: the connection test fails
    without a fetch, both storage keys are removed and the error reads
    "Session expired. Please log in again."; the client is left as it was
    (its [apiKey] included). *)
Theorem offline_startup_clears_session
    (w : World) (storedToken storedUser : string) :
  stored_pair w = Some (storedToken, storedUser) ->
  isOnline (svc w) = false ->
  exists w',
    checkAuthStatus Basic.client w = (Returned tt, w') /\
    localStorage w'
    = delete "visual_erp_user" (delete "visual_erp_token" (localStorage w)) /\
    error (auth w') = Some "Session expired. Please log in again." /\
    isLoading (auth w') = false /\
    isAuthenticated (auth w') = isAuthenticated (auth w) /\
    svc w' = svc w /\
    trace w' = trace w.
Proof.
  intros Hpair Hoff.
  unfold checkAuthStatus, finally, try_catch, bind, modify. simpl.
  rewrite stored_pair_loading, Hpair.
  unfold Basic.testConnection, Basic.healthCheck, Basic.request,
    try_catch, bind, throw. simpl. rewrite Hoff. simpl.
  eexists. split; [reflexivity|]. done.
Qed.

(** X29: with the [ApiService] of api.js, a startup check made while the
    backend cannot be reached ends the stored session: the health probe is
    fetched [retryAttempts] times, with the delays in between, the
    connection test then answers with a failure, both storage keys are
    removed and the error reads "Session expired. Please log in again.". *)
Theorem unreachable_startup_clears_session
    (w : World) (storedToken storedUser : string) :
  let url := baseURL (svc w) +:+ "/api/health" in
  let config := Basic.build_config (svc w) no_options in
  stored_pair w = Some (storedToken, storedUser) ->
  isOnline (svc w) = true ->
  0 < retryAttempts (svc w) ->
  (forall i, i < retryAttempts (svc w) ->
     exists m,
       fetch_result (fetches w + i) url config = NetworkError m /\
       Basic.is_client_error_message m = false) ->
  exists w',
    checkAuthStatus Basic.client w = (Returned tt, w') /\
    localStorage w'
    = delete "visual_erp_user" (delete "visual_erp_token" (localStorage w)) /\
    error (auth w') = Some "Session expired. Please log in again." /\
    isLoading (auth w') = false /\
    isAuthenticated (auth w') = isAuthenticated (auth w) /\
    svc w' = svc w /\
    fetches w' = fetches w + retryAttempts (svc w) /\
    trace w' = trace w ++
      retry_trace url config (retryAttempts (svc w)) (retryDelay (svc w))
                  (retryAttempts (svc w)) 1.
Proof.
  intros url config Hpair Hon Hpos Hdown.
  unfold checkAuthStatus, finally, try_catch, bind, modify. simpl.
  rewrite stored_pair_loading, Hpair.
  unfold Basic.testConnection, Basic.healthCheck, Basic.request,
    try_catch, bind, throw. simpl. rewrite Hon. simpl.
  fold url config.
  destruct (basic_attempts_exhaust (retryAttempts (svc w)) "/api/health"
              url config 1 ThrownUndefined
              (setError None (setIsLoading true w)))
    as (e & w1 & Hrun & Htrace & Hfetches & Hlast).
  { intros i Hi. destruct (Hdown i Hi) as (m & Hm & Hclean).
    exists m. simpl. by rewrite Hm. }
  simpl in Hrun. rewrite Hrun. simpl.
  destruct (basic_attempts_frame (retryAttempts (svc w)) 1 ThrownUndefined
              "/api/health" url config (setError None (setIsLoading true w)))
    as (_ & Hsvc & _ & _ & Hst & Hauth).
  simpl in Hsvc, Hst, Hauth. rewrite Hrun in Hsvc, Hst, Hauth.
  simpl in Hsvc, Hst, Hauth.
  assert (exists m, e = Err m) as [m ->].
  { destruct (retryAttempts (svc w)) as [|n]; [lia|].
    simpl in Hlast. destruct (Hdown n ltac:(lia)) as (m & Hm & _).
    rewrite Hm in Hlast. simpl in Hlast. injection Hlast as <-. eauto. }
  simpl. eexists. split; [reflexivity|]. simpl.
  rewrite Hst, Hauth, Hsvc. simpl. repeat split; try done.
Qed.

(** X30: with the [ApiService] of api.js and no token configured at page
    load, the startup check validates the stored session with a probe that
    does not carry the stored token: one fetch of the health endpoint with
    the content type as its only header; when it is answered ok, the
    provider is authenticated with the stored user and the stored token is
    installed in the client only then. *)
Theorem startup_probe_carries_no_token
    (w : World) (storedToken storedUser : string) (r : Response)
    (health parsed : Json) :
  let url := baseURL (svc w) +:+ "/api/health" in
  let config := Basic.build_config (svc w) no_options in
  truthy (apiKey (svc w)) = false ->
  stored_pair w = Some (storedToken, storedUser) ->
  isOnline (svc w) = true ->
  0 < retryAttempts (svc w) ->
  fetch_result (fetches w) url config = Responded r ->
  ok r = true ->
  body r = Parsed health ->
  JSON_parse storedUser = inr parsed ->
  exists w',
    checkAuthStatus Basic.client w = (Returned tt, w') /\
    trace w' = trace w ++ [EvFetch url config] /\
    cfg_headers config = [("Content-Type", "application/json")] /\
    isAuthenticated (auth w') = true /\
    user (auth w') = parsed /\
    apiKey (svc w') = JStr storedToken /\
    localStorage w' = localStorage w.
Proof.
  intros url config Hkey Hpair Hon Hpos Hfetch Hok Hbody Hparse.
  unfold checkAuthStatus, finally, try_catch, bind, modify. simpl.
  rewrite stored_pair_loading, Hpair.
  unfold Basic.testConnection, Basic.healthCheck, Basic.request,
    try_catch, bind, throw. simpl. rewrite Hon. simpl.
  fold url config.
  destruct (retryAttempts (svc w)) as [|n]; [lia|].
  cbn [Basic.attempts]. rewrite basic_attempt_once_eq. simpl fetches.
  unfold basic_caught. rewrite Hfetch, Hok, Hbody. simpl.
  rewrite Hparse. simpl.
  eexists. split; [reflexivity|]. simpl.
  repeat split; try done.
  subst config. unfold Basic.build_config, Basic.headers. simpl.
  by rewrite Hkey.
Qed.

End WithPlatform.
End StartupFacts.

(** ** The theorems above on the sample worlds *)

Module Scenarios.
Import Enhanced.

Lemma request_succeeds_after_failures_witness :
  exists w',
    @makeRequest recovering_backend "/api/inventory/products" no_options
      production_world = (Returned products_envelope, w') /\
    delay_events (trace w') = [1000] /\
    fetches w' = 2.
Proof.
  destruct (@ServiceFacts.request_succeeds_after_failures recovering_backend
              production_world "/api/inventory/products" no_options 1
              products_envelope) as (w' & Hrun & Htrace & Hfetches).
  - left. reflexivity.
  - simpl. lia.
  - intros i Hi. assert (i = 0) as -> by lia.
    exists "Network error". split; reflexivity.
  - reflexivity.
  - exists w'. split; [exact Hrun|]. split; [|exact Hfetches].
    rewrite Htrace. reflexivity.
Defined.

Lemma failures_exhaust_retries_witness :
  exists e w',
    @makeRequest not_found_backend "/api/quotes/9" no_options production_world
    = (Thrown e, w') /\
    delay_events (trace w') = [1000; 2000] /\
    fetches w' = 3.
Proof.
  destruct (@RetryFacts.failures_exhaust_retries not_found_backend
              production_world "/api/quotes/9" no_options)
    as (e & w' & Hrun & Htrace & Hfetches).
  - left. reflexivity.
  - intros i Hi. exists "HTTP error! status: 404, message: Not Found".
    split; reflexivity.
  - exists e, w'. split; [exact Hrun|]. split; [|exact Hfetches].
    rewrite Htrace. reflexivity.
Defined.

Lemma offline_request_queued_iff_witness :
  (exists h,
     fst (@makeRequest unreachable "/api/quotes"
            (mkOptions (Some "POST") None None) offline_world) = Suspended h)
  <-> Some "POST" <> Some "GET".
Proof.
  exact (@QueueFacts.offline_request_queued_iff unreachable offline_world
           "/api/quotes" (mkOptions (Some "POST") None None) eq_refl).
Defined.

Lemma makeRequest_keeps_promises_witness :
  promises (snd (@makeRequest flaky_backend "/api/quotes"
                   (mkOptions (Some "DELETE") None None) queued_world)) !! 0
  = Some PendingP.
Proof.
  rewrite (@QueueFacts.makeRequest_keeps_promises flaky_backend queued_world
             "/api/quotes" (mkOptions (Some "DELETE") None None) 0).
  - reflexivity.
  - simpl. lia.
Defined.

Lemma queued_request_replays_as_enqueued_witness :
  let options := mkOptions (Some "POST") None (Some "a quote") in
  let w' :=
    @on_online flaky_backend
      (set_svc (set_apiKey (JStr "fresh-token"))
         (snd (@makeRequest flaky_backend "/api/quotes" options
                 offline_world))) in
  fetch_events (trace w')
  = [("https://erp.example.com/api/quotes",
      mkConfig (Some "POST") [("Content-Type", "application/json")]
               (Some "a quote"))] /\
  promises w' !! 0 = Some (Rejected (Err "Failed to fetch")).
Proof.
  destruct (@ServiceFacts.queued_request_replays_as_enqueued flaky_backend
              offline_world "/api/quotes"
              (mkOptions (Some "POST") None (Some "a quote"))
              (JStr "fresh-token"))
    as (_ & Htrace & Hpromise).
  - reflexivity.
  - discriminate.
  - apply QueueFacts.queue_wf_initial.
  - split; [by rewrite Htrace | exact Hpromise].
Defined.

Lemma testConnection_never_throws_witness :
  (exists h w', @testConnection unreachable production_world
                = (Suspended h, w')) \/
  (exists result w' b,
     @testConnection unreachable production_world = (Returned result, w') /\
     prop result "success" = Some (JBool b)).
Proof.
  apply (@ServiceFacts.testConnection_never_throws unreachable
           production_world).
  simpl. lia.
Defined.

Lemma refreshToken_keeps_token_in_step_witness :
  @token_in_step login_backend
    (snd (@refreshToken login_backend anonymous_world)) /\
  apiKey (svc (snd (@refreshToken login_backend anonymous_world)))
  = JStr "abc".
Proof.
  split; [|reflexivity].
  apply (@ServiceFacts.refreshToken_keeps_token_in_step login_backend
           anonymous_world).
  reflexivity.
Defined.

Lemma write_call_rethrows_witness :
  exists m w',
    @createQuote unreachable (JStr "a quote") production_world
    = (Thrown (Err ("Failed to create quote: " +:+ m)), w') /\
    m = "Failed to fetch" /\
    fetches w' = 3.
Proof.
  destruct (@ServiceFacts.write_call_rethrows unreachable "/api/quotes"
              (mkOptions (Some "POST") None (Some "a quote"))
              "Failed to create quote: " production_world)
    as (m & w' & Hm & Hrun & Hfetches).
  - left. reflexivity.
  - simpl. lia.
  - intros i Hi. exists "Failed to fetch". split; reflexivity.
  - exists m, w'. split; [exact Hrun|]. split; [|exact Hfetches].
    simpl in Hm. by injection Hm as <-.
Defined.

Lemma item_call_outcomes_witness :
  fst (@getProduct unreachable (num 2) production_world)
  <> Thrown (Err "Failed to fetch") /\
  fst (@getProduct unreachable (JStr "2") production_world)
  = Returned (JObj [("success", JBool false);
                    ("error", JStr "Product not found")]) /\
  exists item,
    fst (@getProduct unreachable (num 2) production_world)
    = Returned (JObj [("success", JBool true); ("product", item)]) /\
    prop item "sku" = Some (JStr "CBD-1000").
Proof.
  destruct (@ItemFacts.item_call_outcomes unreachable
              "/api/inventory/products" "products" "product"
              "Product not found" (@getMockProducts unreachable) (num 2)
              production_world
              (match prop (@getMockProducts unreachable) "products" with
               | Some (JArr l) => l
               | _ => []
               end))
    as (Hcaught & _).
  - reflexivity.
  - repeat constructor.
  - split; [exact (Hcaught (Err "Failed to fetch"))|].
    split; [reflexivity|].
    eexists. split; reflexivity.
Defined.

Lemma checkAuthStatus_session_ok_witness :
  stored_session_ok remounted_world /\
  stored_session_ok
    (snd (@checkAuthStatus unauthorized_backend
            (@client unauthorized_backend) remounted_world)).
Proof.
  assert (Hok : stored_session_ok remounted_world).
  { intros _. exists "abc". split; [reflexivity | discriminate]. }
  split; [exact Hok|].
  apply (@AuthFacts.checkAuthStatus_session_ok unauthorized_backend
           (@client unauthorized_backend) remounted_world).
  - apply AuthFacts.enhanced_testConnection_keeps_storage.
  - exact Hok.
Defined.

Lemma checkAuthStatus_without_stored_pair_witness :
  exists w',
    @checkAuthStatus unreachable (@client unreachable) anonymous_world
    = (Returned tt, w') /\
    trace w' = [] /\
    isLoading (auth w') = false.
Proof.
  destruct (@ProviderFacts.checkAuthStatus_without_stored_pair unreachable
              (@client unreachable) anonymous_world eq_refl)
    as (w' & Hrun & _ & _ & Htrace & _ & _ & _ & Hloading & _).
  exists w'. split; [exact Hrun|]. split; [exact Htrace | exact Hloading].
Defined.

Lemma checkAuthStatus_restores_session_witness :
  exists w2,
    @checkAuthStatus healthy_backend (@client healthy_backend)
      (set_svc (set_apiKey (JStr "")) remounted_world) = (Returned tt, w2) /\
    isAuthenticated (auth w2) = true /\
    user (auth w2) = JStr "t" /\
    apiKey (svc w2) = JStr "abc".
Proof.
  destruct (@ProviderFacts.checkAuthStatus_restores_session healthy_backend
              (@client healthy_backend)
              (set_svc (set_apiKey (JStr "")) remounted_world)
              (snd (@testConnection healthy_backend
                      (setError None
                         (setIsLoading true
                            (set_svc (set_apiKey (JStr ""))
                               remounted_world)))))
              "abc" "t"
              (JObj [("success", JBool true);
                     ("data", JObj [("status", JStr "ok")])])
              (JStr "t"))
    as (w2 & Hrun & Hauth & Huser & Hkey & _).
  - reflexivity.
  - reflexivity.
  - discriminate.
  - reflexivity.
  - reflexivity.
  - exists w2. repeat split; assumption.
Defined.

Lemma checkAuthStatus_unparsable_user_witness :
  exists w2,
    @checkAuthStatus corrupt_storage_platform
      (@client corrupt_storage_platform)
      (set_svc (set_apiKey (JStr "")) remounted_world) = (Returned tt, w2) /\
    isAuthenticated (auth w2) = true /\
    user (auth w2) = JNull /\
    apiKey (svc w2) = JStr "" /\
    error (auth w2) = Some "Authentication check failed".
Proof.
  destruct (@ProviderFacts.checkAuthStatus_unparsable_user
              corrupt_storage_platform (@client corrupt_storage_platform)
              (set_svc (set_apiKey (JStr "")) remounted_world)
              (snd (@testConnection corrupt_storage_platform
                      (setError None
                         (setIsLoading true
                            (set_svc (set_apiKey (JStr ""))
                               remounted_world)))))
              "abc" "t"
              (JObj [("success", JBool true);
                     ("data", JObj [("status", JStr "ok")])])
              (Err "Unexpected token u in JSON"))
    as (w2 & Hrun & Hauth & Huser & Hkey & _ & Herror & _).
  - reflexivity.
  - reflexivity.
  - discriminate.
  - reflexivity.
  - reflexivity.
  - exists w2. repeat split; assumption.
Defined.

Lemma login_failure_is_reported_witness :
  exists w2,
    @login unauthorized_backend (@client unauthorized_backend) credentials
      anonymous_world
    = (Returned
         (JObj [("success", JBool false);
                ("error",
                 JStr ("Authentication failed: " +:+
                       "HTTP error! status: 401, message: Unauthorized"))]),
       w2) /\
    isAuthenticated (auth w2) = false /\
    isLoading (auth w2) = false /\
    localStorage w2 = ∅.
Proof.
  destruct (@ProviderFacts.login_failure_is_reported unauthorized_backend
              (@client unauthorized_backend) credentials anonymous_world
              (snd (@authenticate unauthorized_backend credentials
                      (setError None (setIsLoading true anonymous_world))))
              ("Authentication failed: " +:+
               "HTTP error! status: 401, message: Unauthorized"))
    as (w2 & Hrun & _ & Hloading & Hauth & _ & Hstorage & _).
  - reflexivity.
  - exists w2. repeat split; assumption.
Defined.

Lemma basic_named_statuses_are_retried_witness :
  exists r w',
    @Basic.request unauthorized_backend "/api/quotes" no_options
      production_world
    = (Thrown (Err (@Basic.status_message unauthorized_backend r)), w') /\
    status r = 401%N /\
    delay_events (trace w') = [1000; 2000].
Proof.
  destruct (@BasicFacts.basic_named_statuses_are_retried unauthorized_backend
              "/api/quotes" no_options production_world)
    as (r & w' & Hr & Hrun & Htrace).
  - reflexivity.
  - simpl. lia.
  - intros i Hi.
    exists (mkResponse false 401 "Unauthorized" (Parsed (JObj []))).
    split; [reflexivity|]. split; [reflexivity|]. left. reflexivity.
  - exists r, w'. split; [exact Hrun|]. split.
    + simpl in Hr. by injection Hr as <-.
    + rewrite Htrace. reflexivity.
Defined.

Lemma basic_getProducts_fallback_is_gated_witness :
  (exists e, fst (@Basic.getProducts unreachable production_world) = Thrown e)
  /\ fst (@Basic.getProducts unreachable dev_world)
     = Returned Basic.getMockProducts.
Proof.
  split.
  - apply (@BasicFacts.basic_getProducts_fallback_is_gated unreachable
             production_world).
    + reflexivity.
    + intros n url config. exists "Failed to fetch". reflexivity.
    + reflexivity.
  - apply (@BasicFacts.basic_getProducts_fallback_is_gated unreachable
             dev_world).
    + reflexivity.
    + intros n url config. exists "Failed to fetch". reflexivity.
    + reflexivity.
Defined.

Lemma basic_list_response_is_unwrapped_witness :
  fst (@Basic.request products_backend "/api/inventory/products" no_options
         production_world) = Returned (JArr [JStr "hemp flower"]).
Proof.
  destruct (@MapperFacts.basic_list_response_is_unwrapped products_backend
              "/api/inventory/products" "products" no_options
              production_world
              (mkResponse true 200 "OK" (Parsed products_envelope))
              products_envelope) as [Hobject _].
  - apply elem_of_cons. left. reflexivity.
  - reflexivity.
  - simpl. lia.
  - reflexivity.
  - reflexivity.
  - reflexivity.
  - apply (Hobject [("success", JBool true);
                    ("products", JArr [JStr "hemp flower"])]);
      reflexivity.
Defined.

Lemma added_line_keeps_total_witness :
  @QuoteCRUD.quoteData integer_format (QuoteCRUD.addLineItem stale_form)
  !! "total"
  = Some (QuoteCRUD.FNum (number_of_Z 25)).
Proof.
  rewrite (proj2 (@FormFacts.added_line_keeps_total integer_format
                    stale_form _ eq_refl)).
  reflexivity.
Defined.

Lemma removed_line_leaves_the_rest_witness :
  @QuoteCRUD.quoteData integer_format (QuoteCRUD.removeLineItem 0 stale_form)
  !! "total"
  = Some (QuoteCRUD.FNum (number_of_Z 5)) /\
  QuoteCRUD.form_items
    (QuoteCRUD.removeLineItem 2 (QuoteCRUD.addLineItem stale_form))
  = QuoteCRUD.form_items stale_form.
Proof.
  split.
  - destruct (@FormFacts.removed_line_leaves_the_rest integer_format
                stale_form _ 0 eq_refl) as (_ & _ & Htotal & _).
    exact Htotal.
  - destruct (@FormFacts.removed_line_leaves_the_rest integer_format
                stale_form _ 0 eq_refl) as (_ & _ & _ & Hback & _).
    exact Hback.
Defined.

Lemma submitted_form_is_complete_witness :
  QuoteCRUD.submitted_data
    (QuoteCRUD.CreateQuote (@QuoteCRUD.quoteData integer_format stale_form))
  !! "customerId"
  = Some (QuoteCRUD.FNum (number_of_Z 7)).
Proof.
  destruct (@FormFacts.submitted_form_is_complete integer_format stale_form
              None
              (QuoteCRUD.CreateQuote
                 (@QuoteCRUD.quoteData integer_format stale_form))
              eq_refl) as (_ & Hcustomer & _).
  exact Hcustomer.
Defined.

Lemma edited_quote_resubmits_witness :
  exists form data,
    @QuoteCRUD.handleEdit integer_format first_ten listed_quote = Some form /\
    @QuoteCRUD.handleSubmit integer_format form (Some (JStr "q1"))
    = Some (QuoteCRUD.UpdateQuote (JStr "q1") data) /\
    data !! "customerId" = Some (QuoteCRUD.FNum (number_of_Z 12)) /\
    data !! "total"
    = Some (QuoteCRUD.FNum
              (number_add (number_of_Z 2250)
                          (S754_finite false 4749362466410987 (-44)))) /\
    listed_quote !! "total" = Some (QuoteCRUD.FNum (number_of_Z 15750)).
Proof.
  destruct (@EditFacts.edited_quote_resubmits integer_format first_ten
              listed_quote (JStr "q1") (units "Q2024-001")
              (units "2024-12-31") 12
              (QuoteCRUD.FStr (units "2024-12-31T00:00:00.000Z"))
              [QuoteCRUD.mkLineItem (units "1") (units "Flower")
                 (number_of_Z 50) (number_of_Z 45);
               QuoteCRUD.mkLineItem (units "2") (units "Tincture")
                 (number_of_Z 3) (price 8999)])
    as (form & data & Hedit & Hsubmit & Hcust & Htotal & _).
  - reflexivity.
  - reflexivity.
  - reflexivity.
  - reflexivity.
  - reflexivity.
  - reflexivity.
  - reflexivity.
  - discriminate.
  - reflexivity.
  - discriminate.
  - exists form, data.
    split; [exact Hedit|]. split; [exact Hsubmit|]. split; [exact Hcust|].
    split; [exact Htotal | reflexivity].
Defined.

Lemma flush_keeps_unsent_errors_witness :
  Analytics.errorQueue
    (fst (@Analytics.flushErrorQueue unreachable production_analytics
            production_world))
  = [JStr "first"; JStr "second"].
Proof.
  destruct (@AnalyticsFacts.flush_keeps_unsent_errors unreachable
              production_analytics production_world)
    as (_ & Hqueue & _).
  - reflexivity.
  - discriminate.
  - discriminate.
  - exact Hqueue.
Defined.

Lemma local_store_keeps_last_100_witness :
  exists dropped kept,
    localStorage
      (@Analytics.storeLocally dev_platform "/api/analytics/errors"
         (JObj [("errors", JArr [JStr "first"; JStr "second"])]) dev_world)
    !! "analytics__api_analytics_errors"
    = Some (@JSON_stringify dev_platform (JArr kept)) /\
    [JStr "first"; JStr "second"] = dropped ++ kept /\
    length kept = 2.
Proof.
  destruct (@AnalyticsFacts.local_store_keeps_last_100 dev_platform
              "/api/analytics/errors" dev_world []
              [JStr "first"; JStr "second"] eq_refl)
    as (dropped & kept & Hstored & Hsplit & Hlen & _).
  exists dropped, kept. repeat split; assumption.
Defined.

Lemma offline_startup_clears_session_witness :
  exists w',
    @checkAuthStatus healthy_backend (@Basic.client healthy_backend)
      (on_offline remounted_world) = (Returned tt, w') /\
    localStorage w' = ∅ /\
    apiKey (svc w') = JStr "abc" /\
    error (auth w') = Some "Session expired. Please log in again.".
Proof.
  destruct (@StartupFacts.offline_startup_clears_session healthy_backend
              (on_offline remounted_world) "abc" "t")
    as (w' & Hrun & Hstorage & Herror & _ & _ & Hsvc & _).
  - reflexivity.
  - reflexivity.
  - exists w'. split; [exact Hrun|]. split; [|split].
    + rewrite Hstorage. apply map_eq. intros k. simpl.
      destruct (decide (k = "visual_erp_user")) as [->|Hu];
        [by rewrite lookup_delete_eq|].
      rewrite lookup_delete_ne by done.
      destruct (decide (k = "visual_erp_token")) as [->|Ht];
        [by rewrite lookup_delete_eq|].
      rewrite lookup_delete_ne by done.
      by rewrite !lookup_insert_ne.
    + by rewrite Hsvc.
    + exact Herror.
Defined.

Lemma unreachable_startup_clears_session_witness :
  exists w',
    @checkAuthStatus unreachable (@Basic.client unreachable)
      (set_svc (set_apiKey (JStr "")) remounted_world) = (Returned tt, w') /\
    localStorage w' !! "visual_erp_token" = None /\
    error (auth w') = Some "Session expired. Please log in again." /\
    fetches w' = 3.
Proof.
  destruct (@StartupFacts.unreachable_startup_clears_session unreachable
              (set_svc (set_apiKey (JStr "")) remounted_world) "abc" "t")
    as (w' & Hrun & Hstorage & Herror & _ & _ & _ & Hfetches & _).
  - reflexivity.
  - reflexivity.
  - simpl. lia.
  - intros i Hi. exists "Failed to fetch". split; reflexivity.
  - exists w'. split; [exact Hrun|]. split; [|split].
    + rewrite Hstorage. rewrite lookup_delete_ne by done.
      apply lookup_delete_eq.
    + exact Herror.
    + exact Hfetches.
Defined.

Lemma startup_probe_carries_no_token_witness :
  exists w',
    @checkAuthStatus healthy_backend (@Basic.client healthy_backend)
      (set_svc (set_apiKey (JStr "")) remounted_world) = (Returned tt, w') /\
    fetch_events (trace w')
    = [("https://erp.example.com/api/health",
        mkConfig None [("Content-Type", "application/json")] None)] /\
    isAuthenticated (auth w') = true /\
    apiKey (svc w') = JStr "abc".
Proof.
  destruct (@StartupFacts.startup_probe_carries_no_token healthy_backend
              (set_svc (set_apiKey (JStr "")) remounted_world) "abc" "t"
              (mkResponse true 200 "OK"
                 (Parsed (JObj [("status", JStr "ok")])))
              (JObj [("status", JStr "ok")]) (JStr "t"))
    as (w' & Hrun & Htrace & _ & Hauth & _ & Hkey & _).
  - reflexivity.
  - reflexivity.
  - reflexivity.
  - simpl. lia.
  - reflexivity.
  - reflexivity.
  - reflexivity.
  - reflexivity.
  - exists w'. split; [exact Hrun|]. split; [|split].
    + rewrite Htrace. reflexivity.
    + exact Hauth.
    + exact Hkey.
Defined.


End Scenarios.
